(** * ompy.ensemble: the ensemble driver, its checkpointed stages and its
      perturbation models

    A shallow embedding of [src/ompy/ensemble.py].  The class [Ensemble]
    mutates itself, the files below [save_path] and numpy's global random
    state, and any call may raise; the methods are therefore embedded in a
    state-and-exception monad over a [world] that holds the three.

    numpy is not part of the repository.  The scalar operations the code
    asks of it (comparison with zero, square root, the standard deviation
    of a sample, one normal and one Poisson draw, the largest rate the
    Poisson sampler accepts) are an interface,
    [Numeric] and [RandomState]; the array operations built from them
    ([np_where], [np_sqrt], [np_zeros], indexed assignment, [np_std] over
    axis 0) are written out below. *)

From stdpp Require Import gmap strings pretty list.
From Stdlib Require Import ZArith Ascii.

(** ** Exceptions and results *)

Inductive exn :=
  | ValueError (msg : string)
  | AttributeError (msg : string)
  | TypeError (msg : string)
  | IndexError (msg : string)
  | OSError (path : string).

Inductive result (A : Type) :=
  | Ok (a : A)
  | Raise (e : exn).
Arguments Ok {A} a.
Arguments Raise {A} e.

(** ** The numerical interface *)

(** What the code needs of numpy's scalars: [zero], the strict order as a
    test, [np.sqrt] on one value and [np.std] on one sample. *)
Class Numeric (V : Type) := {
  zero : V;
  ltb : V → V → bool;
  sqrt : V → V;
  std1 : list V → V;
}.

(** One draw of [np.random.normal(loc, scale)] and of
    [np.random.poisson(lam)] from the generator state [Rng], and the
    largest rate [np.random.poisson] accepts: numpy's [POISSON_LAM_MAX],
    ten standard deviations below the largest 64-bit integer. *)
Class RandomState (V Rng : Type) := {
  normal1 : V → V → Rng → V * Rng;
  poisson1 : V → Rng → V * Rng;
  poisson_lam_max : V;
}.

(** The facts about numpy's scalars and samplers that the properties of the
    perturbation models rest on. *)
Class NumericLaws (V Rng : Type) `{Numeric V} `{RandomState V Rng} := {
  ltb_irrefl : ∀ x : V, ltb x x = false;
  sqrt_zero : sqrt zero = zero;
  sqrt_nonneg : ∀ x : V, ltb (sqrt x) zero = false;
  poisson1_zero : ∀ g : Rng, (poisson1 zero g).1 = zero;
}.

(** ** Arrays *)

(** A two-dimensional array: its shape and its cells in row-major order. *)
Record array2 (V : Type) := Array2 {
  rows : nat;
  cols : nat;
  cells : list V;
}.
Arguments Array2 {V} rows cols cells.
Arguments rows {V} a.
Arguments cols {V} a.
Arguments cells {V} a.

(** A stack of [depth] two-dimensional arrays of one shape. *)
Record array3 (V : Type) := Array3 {
  depth : nat;
  rows3 : nat;
  cols3 : nat;
  cells3 : list V;
}.
Arguments Array3 {V} depth rows3 cols3 cells3.
Arguments depth {V} a.
Arguments rows3 {V} a.
Arguments cols3 {V} a.
Arguments cells3 {V} a.

(** The [shape] tuples, as Python compares them. *)
Definition shape2 {V} (a : array2 V) : list nat := [rows a; cols a].
Definition shape3 {V} (e : array3 V) : list nat := [depth e; rows3 e; cols3 e].

Section Arrays.
Context {V : Type} `{Numeric V}.

(** [np.zeros((number, r, c))] *)
Definition np_zeros3 (number r c : nat) : array3 V :=
  Array3 number r c (replicate (number * (r * c)) zero).

(** [np.zeros_like(e)] *)
Definition np_zeros_like (e : array3 V) : array3 V :=
  np_zeros3 (depth e) (rows3 e) (cols3 e).

(** [np.where(cond > 0, x, 0)], cell by cell. *)
Definition np_where_pos (cond x : array2 V) : array2 V :=
  Array2 (rows x) (cols x)
    (zip_with (λ c v, if ltb zero c then v else zero) (cells cond) (cells x)).

(** [np.sqrt(a)] *)
Definition np_sqrt (a : array2 V) : array2 V :=
  Array2 (rows a) (cols a) (sqrt <$> cells a).

(** [a[a < 0] = 0] *)
Definition clamp_negative (a : array2 V) : array2 V :=
  Array2 (rows a) (cols a) ((λ v, if ltb v zero then zero else v) <$> cells a).

(** numpy's broadcasting of a two-dimensional source to the shape
    [(r, c)]: an axis of the source fits when it has the target's length
    or length one, and an axis of length one is repeated. *)
Definition broadcastable (r c : nat) (a : array2 V) : bool :=
  (bool_decide (rows a = r) || bool_decide (rows a = 1)) &&
  (bool_decide (cols a = c) || bool_decide (cols a = 1)).

Definition broadcast_cells (r c : nat) (a : array2 V) : list V :=
  i ← seq 0 r;
  j ← seq 0 c;
  [default zero
     (cells a !! ((if bool_decide (rows a = 1) then 0 else i) * cols a
                  + (if bool_decide (cols a = 1) then 0 else j)))].

(** [e[step, :, :] = a] *)
Definition setitem_step (e : array3 V) (step : nat) (a : array2 V)
  : result (array3 V) :=
  let sz := rows3 e * cols3 e in
  if bool_decide (step < depth e) then
    if broadcastable (rows3 e) (cols3 e) a then
      Ok (Array3 (depth e) (rows3 e) (cols3 e)
            (take (step * sz) (cells3 e)
             ++ broadcast_cells (rows3 e) (cols3 e) a
             ++ drop (S step * sz) (cells3 e)))
    else Raise (ValueError "could not broadcast input array")
  else Raise (IndexError "index out of bounds for axis 0").

(** [np.std(e, axis=0)]: the standard deviation, cell by cell, of the
    [depth e] values the stack holds for that cell. *)
Definition np_std_axis0 (e : array3 V) : array2 V :=
  let sz := rows3 e * cols3 e in
  Array2 (rows3 e) (cols3 e)
    ((λ k, std1 ((λ i, default zero (cells3 e !! (i * sz + k))) <$> seq 0 (depth e)))
       <$> seq 0 sz).
End Arrays.

(** The spec's [sqrt(max(v, 0))]: the rate of the Poisson model and the
    scale of the Gaussian model for a cell of value [v]. *)
Definition root_of_count {V} `{Numeric V} (v : V) : V :=
  sqrt (if ltb zero v then v else zero).

(** ** Random arrays *)

Section RandomArrays.
Context {V Rng : Type} `{Numeric V} `{RandomState V Rng}.

(** The cells are drawn one after the other, in row-major order, each
    from the generator state the previous draw left. *)
Fixpoint draw_normal (locs scales : list V) (g : Rng) : list V * Rng :=
  match locs, scales with
  | l :: locs', s :: scales' =>
      let '(v, g1) := normal1 l s g in
      let '(vs, g2) := draw_normal locs' scales' g1 in
      (v :: vs, g2)
  | _, _ => ([], g)
  end.

Fixpoint draw_poisson (lams : list V) (g : Rng) : list V * Rng :=
  match lams with
  | l :: lams' =>
      let '(v, g1) := poisson1 l g in
      let '(vs, g2) := draw_poisson lams' g1 in
      (v :: vs, g2)
  | [] => ([], g)
  end.

(** [np.random.normal(size=size, loc=loc, scale=scale)]; numpy refuses a
    negative scale before it draws. *)
Definition np_random_normal (size : list nat) (loc scale : array2 V) (g : Rng)
  : result (array2 V) * Rng :=
  if existsb (λ s, ltb s zero) (cells scale) then (Raise (ValueError "scale < 0"), g)
  else
    let '(vs, g') := draw_normal (cells loc) (cells scale) g in
    (Ok (Array2 (default 0 (size !! 0)) (default 0 (size !! 1)) vs), g').

(** [np.random.poisson(lam)]; numpy refuses a negative rate, and a rate
    above [poisson_lam_max], before it draws: the generator state is then
    what it was. *)
Definition np_random_poisson (lam : array2 V) (g : Rng)
  : result (array2 V) * Rng :=
  if existsb (λ l, ltb l zero) (cells lam) then (Raise (ValueError "lam < 0"), g)
  else if existsb (λ l, ltb poisson_lam_max l) (cells lam) then
    (Raise (ValueError "lam value too large"), g)
  else
    let '(vs, g') := draw_poisson (cells lam) g in
    (Ok (Array2 (rows lam) (cols lam) vs), g').
End RandomArrays.

(** ** The matrix value object *)

(** Modelled from the spec: the class [Matrix] of [matrix.py], which is not
    among the sources.  The spec's data model gives a spectrum a
    two-dimensional grid of values, the two energy axes [Eg] and [Ex] and a
    state tag; it is saved to and loaded from a file, and a file round-trips
    the values, the axes and the tag.  A matrix built without a state
    carries none. *)
Record Matrix (V : Type) := mkMatrix {
  values : array2 V;
  Eg : list V;
  Ex : list V;
  state : option string;
}.
Arguments mkMatrix {V} values Eg Ex state.
Arguments values {V} m.
Arguments Eg {V} m.
Arguments Ex {V} m.
Arguments state {V} m.

(** [m.shape] *)
Definition Matrix_shape {V} (m : Matrix V) : list nat := shape2 (values m).

(** Modelled from the spec: a spectrum has no attribute called [value] (its
    grid is [values]); reading an attribute an object does not have raises
    [AttributeError]. *)
Definition Matrix_value {V} (m : Matrix V) : result (array2 V) :=
  Raise (AttributeError "'Matrix' object has no attribute 'value'").

(** ** Files *)

(** What a path of the file system names: a directory, or a regular file
    that holds a saved matrix or something that does not load as one. *)
Inductive node (V : Type) :=
  | Dir
  | File (content : option (Matrix V)).
Arguments Dir {V}.
Arguments File {V} content.

(** Python's [os.path.join(a, b)] on a POSIX system. *)
Fixpoint endswith_sep (s : string) : bool :=
  match s with
  | EmptyString => false
  | String c EmptyString => bool_decide (c = "/"%char)
  | String _ s' => endswith_sep s'
  end.

Definition startswith_sep (s : string) : bool :=
  match s with
  | String c _ => bool_decide (c = "/"%char)
  | EmptyString => false
  end.

Definition os_path_join (a b : string) : string :=
  if startswith_sep b then b
  else if bool_decide (a = "") || endswith_sep a then a +:+ b
  else a +:+ "/" +:+ b.

(** ** The ensemble and the world it runs in *)

Record Ensemble (V : Type) := mkEnsemble {
  raw : Matrix V;
  save_path : string;
  unfolder : option (Matrix V → result (Matrix V));
  first_generation_method : option (Matrix V → result (Matrix V));
  regenerate : option bool;
  firstgen : option (Matrix V);
  std_raw : option (Matrix V);
  std_unfolded : option (Matrix V);
  std_firstgen : option (Matrix V);
  firstgen_ensemble : option (array3 V);
}.
Arguments mkEnsemble {V}.
Arguments raw {V} e.
Arguments save_path {V} e.
Arguments unfolder {V} e.
Arguments first_generation_method {V} e.
Arguments regenerate {V} e.
Arguments firstgen {V} e.
Arguments std_raw {V} e.
Arguments std_unfolded {V} e.
Arguments std_firstgen {V} e.
Arguments firstgen_ensemble {V} e.

Record world (V Rng : Type) := mkWorld {
  self : Ensemble V;
  fs : gmap string (node V);
  rng : Rng;
}.
Arguments mkWorld {V Rng}.
Arguments self {V Rng} w.
Arguments fs {V Rng} w.
Arguments rng {V Rng} w.

(** A computation reads and changes the world and returns or raises; what
    it changed before it raised stays changed. *)
Definition M (V Rng A : Type) : Type := world V Rng → result A * world V Rng.

Definition ret {V Rng A} (a : A) : M V Rng A := λ w, (Ok a, w).

Definition bind {V Rng A B} (c : M V Rng A) (k : A → M V Rng B) : M V Rng B :=
  λ w, match c w with
       | (Ok a, w') => k a w'
       | (Raise e, w') => (Raise e, w')
       end.

Notation "'do' x <- c ;; k" := (bind c (λ x, k))
  (at level 10, x name, c at level 99, k at level 200).
Notation "'run' c ;; k" := (bind c (λ _, k))
  (at level 10, c at level 99, k at level 200).

Definition raise {V Rng A} (e : exn) : M V Rng A := λ w, (Raise e, w).

Definition lift {V Rng A} (r : result A) : M V Rng A := λ w, (r, w).

Definition get_self {V Rng} : M V Rng (Ensemble V) := λ w, (Ok (self w), w).

Definition set_self {V Rng} (f : Ensemble V → Ensemble V) : M V Rng unit :=
  λ w, (Ok tt, mkWorld (f (self w)) (fs w) (rng w)).

(** [np.random] draws from, and advances, the one global generator. *)
Definition with_rng {V Rng A} (f : Rng → result A * Rng) : M V Rng A :=
  λ w, let '(r, g) := f (rng w) in (r, mkWorld (self w) (fs w) g).

(** Attribute assignments. *)
Definition set_regenerate {V} (b : bool) (e : Ensemble V) : Ensemble V :=
  mkEnsemble (raw e) (save_path e) (unfolder e) (first_generation_method e)
    (Some b) (firstgen e) (std_raw e) (std_unfolded e) (std_firstgen e)
    (firstgen_ensemble e).

Definition set_firstgen {V} (m : Matrix V) (e : Ensemble V) : Ensemble V :=
  mkEnsemble (raw e) (save_path e) (unfolder e) (first_generation_method e)
    (regenerate e) (Some m) (std_raw e) (std_unfolded e) (std_firstgen e)
    (firstgen_ensemble e).

Definition set_results {V} (sr su sf : Matrix V) (fe : array3 V) (e : Ensemble V)
  : Ensemble V :=
  mkEnsemble (raw e) (save_path e) (unfolder e) (first_generation_method e)
    (regenerate e) (firstgen e) (Some sr) (Some su) (Some sf) (Some fe).

(** Reading an attribute that was never assigned raises. *)
Definition get_attr {V Rng A} (name : string) (f : Ensemble V → option A) : M V Rng A :=
  λ w, match f (self w) with
       | Some a => (Ok a, w)
       | None => (Raise (AttributeError
                   ("'Ensemble' object has no attribute '" +:+ name +:+ "'")), w)
       end.

(** Modelled from the spec: [os.path.isfile], [Matrix(filename=path)] and
    [matrix.save(path)].  Loading returns the matrix that was saved;
    loading anything else, and saving onto a directory, is a storage
    failure. *)
Definition is_file {V} (files : gmap string (node V)) (path : string) : bool :=
  match files !! path with Some (File _) => true | _ => false end.

Definition os_path_isfile {V Rng} (path : string) : M V Rng bool :=
  λ w, (Ok (is_file (fs w) path), w).

Definition Matrix_load {V Rng} (path : string) : M V Rng (Matrix V) :=
  λ w, match fs w !! path with
       | Some (File (Some m)) => (Ok m, w)
       | _ => (Raise (OSError path), w)
       end.

Definition Matrix_save {V Rng} (m : Matrix V) (path : string) : M V Rng unit :=
  λ w, match fs w !! path with
       | Some Dir => (Raise (OSError path), w)
       | _ => (Ok tt, mkWorld (self w) (<[path := File (Some m)]> (fs w)) (rng w))
       end.

(** ** The class [Ensemble] *)

Section EnsembleMethods.
Context {V Rng : Type} `{Numeric V} `{RandomState V Rng}.

Local Abbreviation M := (M V Rng).

(** [Ensemble.__init__]: the save folder is made if nothing is there. *)
Definition Ensemble_init (raw : Matrix V) (save_path : string)
    (files : gmap string (node V)) (g : Rng) : world V Rng :=
  mkWorld
    (mkEnsemble raw save_path None None None None None None None None)
    (match files !! save_path with
     | Some _ => files
     | None => <[save_path := Dir]> files
     end)
    g.

(** [Ensemble.save] *)
Definition save (matrix : Matrix V) (name : string) : M unit :=
  do s <- get_self ;;
  let path := os_path_join (save_path s) name in
  Matrix_save matrix path.

(** [Ensemble.generate_gaussian], from the point where [self.raw.value]
    has been read: the rest of line 215 and lines 216 to 219. *)
Definition gaussian_perturbation (value : array2 V) : M (array2 V) :=
  do s <- get_self ;;
  let std := np_sqrt (np_where_pos value (values (raw s))) in
  do perturbed <- with_rng
      (np_random_normal (Matrix_shape (raw s)) (values (raw s)) std) ;;
  ret (clamp_negative perturbed).

(** [Ensemble.generate_gaussian] *)
Definition generate_gaussian : M (array2 V) :=
  do s <- get_self ;;
  do value <- lift (Matrix_value (raw s)) ;;
  gaussian_perturbation value.

(** [Ensemble.generate_poisson] *)
Definition generate_poisson : M (array2 V) :=
  do s <- get_self ;;
  let std := np_sqrt (np_where_pos (values (raw s)) (values (raw s))) in
  do perturbed <- with_rng (np_random_poisson std) ;;
  ret perturbed.

(** The names of the files of one draw, and the test every stage makes:
    [os.path.isfile(path) and not self.regenerate]. *)
Definition step_file (stage : string) (step : nat) : string :=
  stage +:+ "_" +:+ pretty step +:+ ".m".

Definition cached (path : string) : M bool :=
  do there <- os_path_isfile path ;;
  if there then
    do regen <- get_attr "regenerate" regenerate ;;
    ret (negb regen)
  else ret false.

(** [Ensemble.generate_raw] *)
Definition generate_raw (step : nat) (method : string) : M (Matrix V) :=
  do s <- get_self ;;
  let path := os_path_join (save_path s) (step_file "raw" step) in
  do hit <- cached path ;;
  if hit then
    Matrix_load path
  else
    do values <-
      (if String.eqb method "gaussian" then generate_gaussian
       else if String.eqb method "poisson" then generate_poisson
       else raise (ValueError ("Method " +:+ method +:+ " is not supported"))) ;;
    let current := mkMatrix values (Eg (raw s)) (Ex (raw s)) None in
    run Matrix_save current path ;;
    ret current.

(** [Ensemble.unfold] *)
Definition unfold (step : nat) (raw : Matrix V) : M (Matrix V) :=
  do s <- get_self ;;
  let path := os_path_join (save_path s) (step_file "unfolded" step) in
  do hit <- cached path ;;
  if hit then
    Matrix_load path
  else
    do unfolded <-
      match unfolder s with
      | Some u => lift (u raw)
      | None => raise (AttributeError "'NoneType' object has no attribute 'unfold'")
      end ;;
    run Matrix_save unfolded path ;;
    ret unfolded.

(** [Ensemble.first_generation] *)
Definition first_generation (step : nat) (unfolded : Matrix V) : M (Matrix V) :=
  do s <- get_self ;;
  let path := os_path_join (save_path s) (step_file "firstgen" step) in
  do hit <- cached path ;;
  if hit then
    Matrix_load path
  else
    do firstgen <-
      match first_generation_method s with
      | Some f => lift (f unfolded)
      | None => raise (TypeError "'NoneType' object is not callable")
      end ;;
    run Matrix_save firstgen path ;;
    ret firstgen.

(** The three stacks the loop of [generate] fills. *)
Record stacks := mkStacks {
  raw_ensemble : array3 V;
  unfolded_ensemble : array3 V;
  firstgen_stack : array3 V;
}.

(** The body of the loop of [generate], for one [step]. *)
Definition draw (number : nat) (method : string) (step : nat) (st : stacks)
  : M stacks :=
  do raw <- generate_raw step method ;;
  do unfolded <- unfold step raw ;;
  do firstgen <- first_generation step unfolded ;;
  do re <- lift (setitem_step (raw_ensemble st) step (values raw)) ;;
  do ue <- lift (setitem_step (unfolded_ensemble st) step (values unfolded)) ;;
  let fe :=
    if bool_decide (shape3 (firstgen_stack st) ≠ Matrix_shape firstgen)
    then np_zeros3 number (rows (values firstgen)) (cols (values firstgen))
    else firstgen_stack st in
  run set_self (set_firstgen firstgen) ;;
  do fe' <- lift (setitem_step fe step (values firstgen)) ;;
  ret (mkStacks re ue fe').

(** [for step in steps: st = body(step, st)] *)
Fixpoint for_each {S : Type} (steps : list nat) (body : nat → S → M S) (st : S)
  : M S :=
  match steps with
  | [] => ret st
  | step :: steps' => do st' <- body step st ;; for_each steps' body st'
  end.

(** The three stacks as [generate] allocates them, all of the shape
    [(number, *self.raw.shape)]. *)
Definition allocate (number : nat) (s : Ensemble V) : stacks :=
  let raw_ensemble :=
    np_zeros3 number (rows (values (raw s))) (cols (values (raw s))) in
  let unfolded_ensemble := np_zeros_like raw_ensemble in
  let firstgen_ensemble := np_zeros_like raw_ensemble in
  mkStacks raw_ensemble unfolded_ensemble firstgen_ensemble.

(** The loop of [generate], from the allocation of the stacks on. *)
Definition draws (number : nat) (method : string) : M stacks :=
  do s <- get_self ;;
  for_each (seq 0 number) (draw number method) (allocate number s).

(** What [generate] does after the loop. *)
Definition summarise (st : stacks) : M unit :=
  do s <- get_self ;;
  let raw_ensemble_std := np_std_axis0 (raw_ensemble st) in
  let raw_std := mkMatrix raw_ensemble_std (Eg (raw s)) (Ex (raw s)) (Some "std") in
  run save raw_std "raw.m" ;;
  let unfolded_ensemble_std := np_std_axis0 (unfolded_ensemble st) in
  let unfolded_std :=
    mkMatrix unfolded_ensemble_std (Eg (raw s)) (Ex (raw s)) (Some "std") in
  run save unfolded_std "unfolded_std.m" ;;
  let firstgen_ensemble_std := np_std_axis0 (firstgen_stack st) in
  do fg <- get_attr "firstgen" firstgen ;;
  let firstgen_std := mkMatrix firstgen_ensemble_std (Eg fg) (Ex fg) (Some "std") in
  run save firstgen_std "first_std.m" ;;
  set_self (set_results raw_std unfolded_std firstgen_std (firstgen_stack st)).

(** [Ensemble.generate] *)
Definition generate (number : nat) (method : string) (regenerate : bool) : M unit :=
  run set_self (set_regenerate regenerate) ;;
  do st <- draws number method ;;
  summarise st.
End EnsembleMethods.

(** ** The vocabulary of the specification *)

Section Specification.
Context {V Rng : Type} `{Numeric V} `{RandomState V Rng}.
Local Abbreviation M := (M V Rng).

(** The perturbation model a method name selects. *)
Definition perturb (method : string) : M (array2 V) :=
  if String.eqb method "gaussian" then generate_gaussian
  else if String.eqb method "poisson" then generate_poisson
  else raise (ValueError ("Method " +:+ method +:+ " is not supported")).

(** What each stage computes when it does not load: the perturbed
    reference with the reference's axes, [Unfolder.unfold] of the stage's
    input, the first generation method of the stage's input. *)
Definition compute_raw (method : string) : M (Matrix V) :=
  do values <- perturb method ;;
  do s <- get_self ;;
  ret (mkMatrix values (Eg (raw s)) (Ex (raw s)) None).

Definition call_unfolder (input : Matrix V) : M (Matrix V) :=
  do s <- get_self ;;
  match unfolder s with
  | Some u => lift (u input)
  | None => raise (AttributeError "'NoneType' object has no attribute 'unfold'")
  end.

Definition call_first_generation (input : Matrix V) : M (Matrix V) :=
  do s <- get_self ;;
  match first_generation_method s with
  | Some f => lift (f input)
  | None => raise (TypeError "'NoneType' object is not callable")
  end.

(** numpy's Poisson sampler refuses the reference [m]: the rate
    [sqrt(max(v, 0))] of one of its cells is above [poisson_lam_max]. *)
Definition rate_too_large (m : Matrix V) : bool :=
  existsb (λ v, ltb poisson_lam_max (root_of_count v)) (cells (values m)).

(** A stage called [name] is checkpointed, for the draw [step] in the world
    [w]: with a saved matrix at [{save_path}/{name}_{step}.m] and
    [regenerate] false it returns that matrix and changes nothing;
    without a file there, or with [regenerate] true, it is [compute]
    followed by a save at that path and the return of what was computed:
    when [compute] returns, the stage returns the same and leaves it,
    saved, at that path, and when [compute] raises, the stage raises the
    same and saves nothing. *)
Definition checkpointed (name : string) (step : nat) (compute stage : M (Matrix V))
    (w : world V Rng) : Prop :=
  let path := os_path_join (save_path (self w)) (name +:+ "_" +:+ pretty step +:+ ".m") in
  (∀ m, fs w !! path = Some (File (Some m)) → regenerate (self w) = Some false →
        stage w = (Ok m, w))
  ∧ (is_file (fs w) path = false ∨ regenerate (self w) = Some true →
     stage w = (do x <- compute ;; run Matrix_save x path ;; ret x) w
     ∧ (∀ m w1, compute w = (Ok m, w1) → fs w1 !! path ≠ Some Dir →
          stage w
          = (Ok m, mkWorld (self w1) (<[path := File (Some m)]> (fs w1)) (rng w1)))
     ∧ (∀ e w1, compute w = (Raise e, w1) → stage w = (Raise e, w1))).

(** The names [generate] gives its three summaries, and the names of the
    stages as they appear in the names of the files of a draw. *)
Definition summary_names : list string := ["raw.m"; "unfolded_std.m"; "first_std.m"].

Definition stage_names : list string := ["raw"; "unfolded"; "firstgen"].

(** The paths of the files of the draws, below the folder [folder]. *)
Definition draw_path (folder path : string) : Prop :=
  ∃ stage step, stage ∈ stage_names ∧ path = os_path_join folder (step_file stage step).

(** Two states of the ensemble that differ at most in [self.firstgen]. *)
Definition same_but_firstgen (e e' : Ensemble V) : Prop :=
  raw e' = raw e ∧ save_path e' = save_path e ∧ unfolder e' = unfolder e
  ∧ first_generation_method e' = first_generation_method e
  ∧ regenerate e' = regenerate e ∧ std_raw e' = std_raw e
  ∧ std_unfolded e' = std_unfolded e ∧ std_firstgen e' = std_firstgen e
  ∧ firstgen_ensemble e' = firstgen_ensemble e.

(** Whatever [c] returns or raises from the world [w], it ends in a world
    that [R] relates to [w]. *)
Definition ends_in {A} (R : relation (world V Rng)) (c : M A) (w : world V Rng) : Prop :=
  ∀ r w', c w = (r, w') → R w w'.

(** What a stage may change: the file at its path.  What the loop of
    [generate] may change: [self.firstgen] and the files of the draws. *)
Definition stage_frame (path : string) (w w' : world V Rng) : Prop :=
  self w' = self w ∧ ∀ q, q ≠ path → fs w' !! q = fs w !! q.

Definition loop_frame (w w' : world V Rng) : Prop :=
  same_but_firstgen (self w) (self w')
  ∧ ∀ q, ¬ draw_path (save_path (self w)) q → fs w' !! q = fs w !! q.

(** One of the three stages of the draw [k], run from the world [wk],
    raises [e] and leaves the world [w1]; the stages before it returned. *)
Definition stage_fails_at (method : string) (k : nat) (wk : world V Rng)
    (e : exn) (w1 : world V Rng) : Prop :=
  generate_raw k method wk = (Raise e, w1)
  ∨ ∃ rawm wa, generate_raw k method wk = (Ok rawm, wa)
      ∧ (unfold k rawm wa = (Raise e, w1)
         ∨ ∃ unf wb, unfold k rawm wa = (Ok unf, wb)
             ∧ first_generation k unf wb = (Raise e, w1)).

(** [fg] is what the first-generation stage returned for the final draw
    of a run of [number] draws that starts in the world [w0]. *)
Definition final_firstgen (number : nat) (method : string) (w0 : world V Rng)
    (fg : Matrix V) : Prop :=
  ∃ st wk rawm wa unf wb wc,
    for_each (seq 0 (number - 1)) (draw number method)
      (allocate number (self w0)) w0 = (Ok st, wk)
    ∧ generate_raw (number - 1) method wk = (Ok rawm, wa)
    ∧ unfold (number - 1) rawm wa = (Ok unf, wb)
    ∧ first_generation (number - 1) unf wb = (Ok fg, wc).

(** The assignment [self.firstgen = fg], made or not. *)
Definition fg_upd (o : option (Matrix V)) (e : Ensemble V) : Ensemble V :=
  match o with
  | Some fg => set_firstgen fg e
  | None => e
  end.

(** What the part of [generate] after the loop may change: the three
    summary files and the four attributes it assigns. *)
Definition summary_frame (w w' : world V Rng) : Prop :=
  rng w' = rng w
  ∧ raw (self w') = raw (self w)
  ∧ save_path (self w') = save_path (self w)
  ∧ regenerate (self w') = regenerate (self w)
  ∧ firstgen (self w') = firstgen (self w)
  ∧ ∀ q, (∀ name, name ∈ summary_names → q ≠ os_path_join (save_path (self w)) name) →
         fs w' !! q = fs w !! q.

(** The world in which the loop of [generate] starts. *)
Definition started (regenerate : bool) (w : world V Rng) : world V Rng :=
  mkWorld (set_regenerate regenerate (self w)) (fs w) (rng w).

(** Every draw [step < number] has its three files. *)
Definition fully_cached (number : nat) (w : world V Rng) : Prop :=
  ∀ stage step, stage ∈ stage_names → step < number →
    is_file (fs w) (os_path_join (save_path (self w)) (step_file stage step)) = true.
End Specification.

(** The decimal rendering of a number starts with a digit. *)
Definition starts_with_digit (s : string) : Prop :=
  match s with
  | String c _ => ∃ d : N, c = pretty_N_char d
  | EmptyString => False
  end.

(** ** An integer instance of the numerical interface

    Counts are integers, the square root and the standard deviation are
    rounded down, and the generator is a linear congruential one.  The
    instance runs the methods above on concrete spectra. *)

Module IntModel.

Definition std_pop (xs : list Z) : Z :=
  let n := Z.of_nat (length xs) in
  if (n =? 0)%Z then 0%Z
  else
    let mean := (foldr Z.add 0 xs / n)%Z in
    Z.sqrt (foldr Z.add 0 ((λ x, (x - mean) * (x - mean)) <$> xs) / n)%Z.

#[global] Instance numeric : Numeric Z :=
  {| zero := 0%Z; ltb := Z.ltb; sqrt := Z.sqrt; std1 := std_pop |}.

Definition next (g : Z) : Z := ((g * 75 + 74) mod 65537)%Z.

(** numpy's [POISSON_LAM_MAX]:
    [np.iinfo('int64').max - np.sqrt(np.iinfo('int64').max) * 10]. *)
Definition int64_max : Z := (2 ^ 63 - 1)%Z.

Definition lam_max : Z := (int64_max - 10 * Z.sqrt int64_max)%Z.

#[global] Instance random_state : RandomState Z Z :=
  {| normal1 := λ loc scale g, ((loc + scale * (g mod 5 - 2))%Z, next g);
     poisson1 := λ lam g, ((g mod (Z.abs lam + 1))%Z, next g);
     poisson_lam_max := lam_max |}.

Definition grid (r c : nat) (xs : list Z) : array2 Z := Array2 r c xs.

Definition spectrum (a : array2 Z) : Matrix Z := mkMatrix a [] [] None.

(** A reference spectrum with a positive, a zero and a negative cell, in a
    fresh ensemble. *)
Definition reference : Matrix Z := spectrum (grid 1 3 [9; 0; -4]%Z).

Definition fresh : world Z Z := Ensemble_init reference "out" ∅ 7%Z.

(** A reference spectrum with a cell of [10 ^ 38] counts, whose rate
    [10 ^ 19] is above the largest one the Poisson sampler accepts. *)
Definition overflowing : world Z Z :=
  Ensemble_init (spectrum (grid 1 2 [9; 10 ^ 38]%Z)) "out" ∅ 7%Z.

(** A folder that holds the three files of two draws of a 1x1 spectrum;
    the two first-generation matrices have one shape and the values 5 and
    7. *)
Definition one (v : Z) : Matrix Z := spectrum (grid 1 1 [v]).

Definition two_draws : gmap string (node Z) :=
  list_to_map
    [("out", Dir);
     ("out/raw_0.m", File (Some (one 9))); ("out/unfolded_0.m", File (Some (one 8)));
     ("out/firstgen_0.m", File (Some (one 5)));
     ("out/raw_1.m", File (Some (one 11))); ("out/unfolded_1.m", File (Some (one 10)));
     ("out/firstgen_1.m", File (Some (one 7)))].

(** An ensemble on that folder, with no collaborators assigned. *)
Definition cached_world : world Z Z := Ensemble_init (one 9) "out" two_draws 1%Z.

(** The same ensemble once [regenerate] is false, and once it is true and
    both collaborators are the identity. *)
Definition identity (m : Matrix Z) : result (Matrix Z) := Ok m.

Definition loading_world : world Z Z :=
  mkWorld (set_regenerate false (self cached_world)) two_draws 1%Z.

Definition computing_world : world Z Z :=
  mkWorld
    (mkEnsemble (one 9) "out" (Some identity) (Some identity) (Some true)
       None None None None None)
    two_draws 1%Z.

End IntModel.

(** ** The three stages under one name, and what a run may do to the files *)

Section Stages.
Context {V Rng : Type} `{Numeric V} `{RandomState V Rng}.

(** A call of one of the three stages: [generate_raw] with its method,
    [unfold] and [first_generation] with their input. *)
Inductive stage_call :=
  | RawStage (method : string)
  | UnfoldStage (input : Matrix V)
  | FirstgenStage (input : Matrix V).

Definition run_stage (c : stage_call) (step : nat) : M V Rng (Matrix V) :=
  match c with
  | RawStage method => generate_raw step method
  | UnfoldStage input => unfold step input
  | FirstgenStage input => first_generation step input
  end.

Definition stage_name (c : stage_call) : string :=
  match c with
  | RawStage _ => "raw"
  | UnfoldStage _ => "unfolded"
  | FirstgenStage _ => "firstgen"
  end.

(** What the stage computes when it does not load. *)
Definition stage_compute (c : stage_call) : M V Rng (Matrix V) :=
  match c with
  | RawStage method => compute_raw method
  | UnfoldStage input => call_unfolder input
  | FirstgenStage input => call_first_generation input
  end.

(** The path of the file of the stage for the draw [step]. *)
Definition stage_path (c : stage_call) (step : nat) (w : world V Rng) : string :=
  os_path_join (save_path (self w)) (step_file (stage_name c) step).

(** [e[step, :, :]], read. *)
Definition getitem_step (e : array3 V) (step : nat) : list V :=
  let sz := rows3 e * cols3 e in
  take sz (drop (step * sz) (cells3 e)).

(** [summary] is [np.std(e, axis=0)]: it has the shape of one slot of the
    stack [e], and its cell [k] is the standard deviation of the sample
    that has, for every slot [i] of the stack in turn, the value of that
    slot at its cell [k]. *)
Definition std_over_slots (summary : array2 V) (e : array3 V) : Prop :=
  shape2 summary = [rows3 e; cols3 e]
  ∧ length (cells summary) = rows3 e * cols3 e
  ∧ ∀ k, k < rows3 e * cols3 e →
      cells summary !! k
      = Some (std1 ((λ i, default zero (getitem_step e i !! k)) <$> seq 0 (depth e))).

(** An array holds as many cells as its shape says. *)
Definition wf2 (a : array2 V) : Prop := length (cells a) = rows a * cols a.

Definition wf3 (e : array3 V) : Prop :=
  length (cells3 e) = depth e * (rows3 e * cols3 e).

(** The slot [k] of the stack [e] holds the values of the matrix [m], as
    the assignment [e[k, :, :] = m.values] leaves them. *)
Definition slot_holds (e : array3 V) (k : nat) (m : Matrix V) : Prop :=
  getitem_step e k = broadcast_cells (rows3 e) (cols3 e) (values m).

(** The file of the stage called [name] for the draw [k], below the save
    folder of [w], holds the matrix in the slot [k] of the stack [e]. *)
Definition slot_is_file (e : array3 V) (name : string) (k : nat) (w : world V Rng)
    : Prop :=
  ∃ m, fs w !! os_path_join (save_path (self w)) (step_file name k)
       = Some (File (Some m))
       ∧ slot_holds e k m.

(** From [w] to [w'] every path is what it was, or holds a saved matrix
    where there was no directory. *)
Definition only_adds (w w' : world V Rng) : Prop :=
  ∀ q, fs w' !! q = fs w !! q
       ∨ (∃ m, fs w' !! q = Some (File (Some m))) ∧ fs w !! q ≠ Some Dir.

(** What a call of [generate] may do, whatever its outcome: it keeps the
    reference, the save folder and the collaborators, only adds saved
    matrices, and leaves every path alone that is neither the path of a
    file of a draw nor that of a summary. *)
Definition run_frame (w w' : world V Rng) : Prop :=
  raw (self w') = raw (self w)
  ∧ save_path (self w') = save_path (self w)
  ∧ unfolder (self w') = unfolder (self w)
  ∧ first_generation_method (self w') = first_generation_method (self w)
  ∧ only_adds w w'
  ∧ ∀ q, ¬ draw_path (save_path (self w)) q →
         (∀ name, name ∈ summary_names → q ≠ os_path_join (save_path (self w)) name) →
         fs w' !! q = fs w !! q.
End Stages.

(** ** More ensembles of the integer instance *)

Module IntSamples.

(** An empty save folder; an ensemble on it with both collaborators the
    identity and [regenerate] false; and one with an unfolder but no first
    generation method. *)
Definition empty_folder : gmap string (node Z) := {["out" := Dir]}.

Definition resuming : world Z Z :=
  mkWorld
    (mkEnsemble (IntModel.one 9) "out" (Some IntModel.identity)
       (Some IntModel.identity) (Some false) None None None None None)
    empty_folder 1%Z.

Definition no_first_generation : world Z Z :=
  mkWorld
    (mkEnsemble (IntModel.one 9) "out" (Some IntModel.identity) None None
       None None None None None)
    empty_folder 1%Z.

End IntSamples.

(** * Properties *)

(** ** The monad *)

Section MonadFacts.
Context {V Rng : Type}.
Local Abbreviation M := (M V Rng).

Lemma bind_ok {A B} (c : M A) (k : A → M B) w a w' :
  c w = (Ok a, w') → bind c k w = k a w'.
Proof. unfold bind. by intros ->. Qed.

Lemma bind_raise {A B} (c : M A) (k : A → M B) w e w' :
  c w = (Raise e, w') → bind c k w = (Raise e, w').
Proof. unfold bind. by intros ->. Qed.

Lemma bind_inv {A B} (c : M A) (k : A → M B) w r w2 :
  bind c k w = (r, w2) →
  (∃ a w1, c w = (Ok a, w1) ∧ k a w1 = (r, w2))
  ∨ (∃ e, c w = (Raise e, w2) ∧ r = Raise e).
Proof.
  unfold bind. destruct (c w) as [[a|e] w1]; intros Hk.
  - left. by exists a, w1.
  - right. exists e. by inversion Hk.
Qed.

Lemma bind_inv_ok {A B} (c : M A) (k : A → M B) w b w2 :
  bind c k w = (Ok b, w2) → ∃ a w1, c w = (Ok a, w1) ∧ k a w1 = (Ok b, w2).
Proof.
  intros Hb. apply bind_inv in Hb as [(a & w1 & ? & ?)|(e & _ & ?)]; [|done].
  by exists a, w1.
Qed.

Lemma world_eta (w : world V Rng) : mkWorld (self w) (fs w) (rng w) = w.
Proof. by destruct w. Qed.
End MonadFacts.

(** ** Arrays and draws *)

Section ArrayFacts.
Context {V Rng : Type} `{Numeric V} `{RandomState V Rng}.

Lemma zip_with_diag {A B} (f : A → A → B) (l : list A) :
  zip_with f l l = (λ x, f x x) <$> l.
Proof. induction l as [|x l IH]; simpl; by f_equal. Qed.

Lemma std_cells (a : array2 V) :
  cells (np_sqrt (np_where_pos a a)) = root_of_count <$> cells a.
Proof.
  unfold np_sqrt, np_where_pos; simpl.
  rewrite zip_with_diag, <-list_fmap_compose. done.
Qed.

(** Every cell of a Poisson draw is one sample at that cell's rate. *)
Lemma draw_poisson_cells (lams : list V) (g : Rng) :
  Forall2 (λ lam o, ∃ g', o = (poisson1 lam g').1) lams (draw_poisson lams g).1.
Proof.
  revert g. induction lams as [|lam lams IH]; intros g; simpl; [constructor|].
  destruct (poisson1 lam g) as [v g1] eqn:Hv.
  specialize (IH g1). destruct (draw_poisson lams g1) as [vs g2]; simpl in *.
  constructor; [|done]. exists g. by rewrite Hv.
Qed.

Lemma existsb_false_Forall {A} (p : A → bool) (l : list A) :
  Forall (λ x, p x = false) l → existsb p l = false.
Proof. induction 1 as [|x l Hx _ IH]; simpl; [done|]. by rewrite Hx, IH. Qed.

Lemma existsb_fmap {A B} (p : B → bool) (f : A → B) (l : list A) :
  existsb p (f <$> l) = existsb (λ x, p (f x)) l.
Proof. induction l as [|x l IH]; simpl; [done|]. f_equal. exact IH. Qed.
End ArrayFacts.

#[global] Instance IntModel_laws :
  @NumericLaws Z Z IntModel.numeric IntModel.random_state.
Proof.
  split.
  - intros x. apply Z.ltb_irrefl.
  - reflexivity.
  - intros x. apply Z.ltb_ge, Z.sqrt_nonneg.
  - intros g. simpl. apply Z.mod_1_r.
Qed.

(** ** The perturbation models *)

Section Perturbation.
Context {V Rng : Type} `{Numeric V} `{RandomState V Rng}.

Lemma root_of_count_nonneg `{!NumericLaws V Rng} (v : V) :
  ltb (root_of_count v) zero = false.
Proof. apply sqrt_nonneg. Qed.

Lemma root_of_count_zero `{!NumericLaws V Rng} : root_of_count zero = zero.
Proof. unfold root_of_count. by rewrite ltb_irrefl, sqrt_zero. Qed.

(** The test [np.random.poisson] makes of the rates of [generate_poisson]:
    none is negative, so the one refusal left is that of a rate above
    [poisson_lam_max]. *)
Lemma np_random_poisson_rates `{!NumericLaws V Rng} (a : array2 V) (g : Rng) :
  np_random_poisson (np_sqrt (np_where_pos a a)) g
  = if existsb (λ v, ltb poisson_lam_max (root_of_count v)) (cells a) then
      (Raise (ValueError "lam value too large"), g)
    else
      let d := draw_poisson (root_of_count <$> cells a) g in
      (Ok (Array2 (rows a) (cols a) d.1), d.2).
Proof.
  unfold np_random_poisson. rewrite std_cells.
  rewrite existsb_false_Forall
    by (apply Forall_fmap, Forall_forall; intros x _; apply root_of_count_nonneg).
  rewrite existsb_fmap. destruct (existsb _ (cells a)); [done|].
  simpl. by destruct (draw_poisson _ _).
Qed.

(** What [generate_poisson] returns and leaves behind, in full, when
    numpy accepts the rates. *)
Lemma generate_poisson_eq `{!NumericLaws V Rng} (w : world V Rng) :
  rate_too_large (raw (self w)) = false →
  let v := values (raw (self w)) in
  let d := draw_poisson (root_of_count <$> cells v) (rng w) in
  generate_poisson w = (Ok (Array2 (rows v) (cols v) d.1), mkWorld (self w) (fs w) d.2).
Proof.
  intros Hr v d. unfold rate_too_large in Hr. fold v in Hr.
  unfold generate_poisson, bind, get_self, with_rng, ret.
  rewrite np_random_poisson_rates. fold v. by rewrite Hr.
Qed.

(** With a rate that numpy refuses, [generate_poisson] raises and draws
    nothing. *)
Lemma generate_poisson_refused `{!NumericLaws V Rng} (w : world V Rng) :
  rate_too_large (raw (self w)) = true →
  generate_poisson w = (Raise (ValueError "lam value too large"), w).
Proof.
  unfold rate_too_large. intros Hr.
  unfold generate_poisson, bind, get_self, with_rng, ret.
  rewrite np_random_poisson_rates, Hr. by rewrite world_eta.
Qed.

Lemma generate_poisson_returned `{!NumericLaws V Rng} (w : world V Rng) out w' :
  generate_poisson w = (Ok out, w') → rate_too_large (raw (self w)) = false.
Proof.
  intros Hg. destruct (rate_too_large (raw (self w))) eqn:Hr; [|done].
  by rewrite generate_poisson_refused in Hg.
Qed.

Lemma generate_poisson_cells `{!NumericLaws V Rng} (w : world V Rng) :
  Forall2 (λ v o, ∃ g, o = (poisson1 (root_of_count v) g).1)
    (cells (values (raw (self w))))
    (draw_poisson (root_of_count <$> cells (values (raw (self w)))) (rng w)).1.
Proof.
  apply (Forall2_fmap_l root_of_count
           (λ lam o, ∃ g, o = (poisson1 lam g).1)), draw_poisson_cells.
Qed.

(** Had the read of [self.raw.value] returned the grid of the reference,
    the rest of [generate_gaussian] would return a grid of the reference's
    shape, one clamped normal draw for each cell, none of them negative. *)
Lemma gaussian_perturbation_clamped `{!NumericLaws V Rng} (w : world V Rng) :
  let v := values (raw (self w)) in
  let d := draw_normal (cells v) (root_of_count <$> cells v) (rng w) in
  gaussian_perturbation v w
  = (Ok (clamp_negative (Array2 (rows v) (cols v) d.1)), mkWorld (self w) (fs w) d.2)
  ∧ Forall (λ x, ltb x zero = false)
      (cells (clamp_negative (Array2 (rows v) (cols v) d.1))).
Proof.
  intros v d. split.
  - unfold gaussian_perturbation, bind, get_self, with_rng, np_random_normal, ret.
    rewrite std_cells. fold v.
    rewrite existsb_false_Forall
      by (apply Forall_fmap, Forall_forall; intros x _; apply root_of_count_nonneg).
    subst d. by destruct (draw_normal _ _ _).
  - simpl. apply Forall_fmap, Forall_forall. intros x _. simpl.
    destruct (ltb x zero) eqn:Hx; [apply ltb_irrefl|done].
Qed.

(** C3: [generate_gaussian] reads [self.raw.value], which a spectrum does
    not have, where [generate_poisson] reads [self.raw.values]: for every
    reference spectrum and every generator state the call raises
    [AttributeError], draws nothing and returns no grid. *)
Theorem generate_gaussian_raises (w : world V Rng) :
  generate_gaussian w
  = (Raise (AttributeError "'Matrix' object has no attribute 'value'"), w).
Proof. reflexivity. Qed.

(** C4: for every reference spectrum whose rates numpy's Poisson sampler
    accepts, [generate_poisson] returns a grid of the reference's shape,
    each cell of which is one Poisson draw whose rate is the square root
    of [max(value, 0)] of the reference's cell, the square root of the
    count and not the count; nothing but the generator state changes.
    The rates are never negative; with a rate above [poisson_lam_max]
    (a cell above some [8.5e37] counts) numpy refuses: the call raises
    [ValueError] and changes nothing. *)
Theorem generate_poisson_spec `{!NumericLaws V Rng} (w : world V Rng) :
  (rate_too_large (raw (self w)) = false →
   ∃ out g',
     generate_poisson w = (Ok out, mkWorld (self w) (fs w) g')
     ∧ shape2 out = Matrix_shape (raw (self w))
     ∧ Forall2 (λ v o, ∃ g, o = (poisson1 (root_of_count v) g).1)
         (cells (values (raw (self w)))) (cells out))
  ∧ (rate_too_large (raw (self w)) = true →
     generate_poisson w = (Raise (ValueError "lam value too large"), w)).
Proof.
  split; [|apply generate_poisson_refused].
  intros Hr. eexists _, _. split; [by apply generate_poisson_eq|]. split; [done|].
  apply generate_poisson_cells.
Qed.

(** C5: at a cell where the reference spectrum is 0, [generate_poisson]
    returns 0 in every draw (numpy accepting the rates of the reference),
    but [generate_gaussian] returns nothing: it raises [AttributeError]
    before it computes a standard deviation. *)
Theorem zero_cell_draws `{!NumericLaws V Rng} (w : world V Rng) (k : nat) :
  cells (values (raw (self w))) !! k = Some zero →
  (rate_too_large (raw (self w)) = false →
   ∃ out w', generate_poisson w = (Ok out, w') ∧ cells out !! k = Some zero)
  ∧ (∃ msg, generate_gaussian w = (Raise (AttributeError msg), w)).
Proof.
  intros Hk. split; [|by eexists].
  intros Hr. eexists _, _. split; [by apply generate_poisson_eq|]. simpl.
  destruct (Forall2_lookup_l _ _ _ _ _ (generate_poisson_cells w) Hk)
    as (o & Ho & g & ->).
  by rewrite Ho, root_of_count_zero, poisson1_zero.
Qed.

(** C10: [generate_poisson] returns the Poisson draws as they are, with no
    clamping step; whatever holds of every Poisson sample (being a
    nonnegative integer) therefore holds of every cell of every grid it
    returns.  It returns a grid for every reference whose rates numpy's
    Poisson sampler accepts. *)
Theorem generate_poisson_unclamped `{!NumericLaws V Rng} (P : V → Prop) (w : world V Rng) :
  (∀ lam g, P (poisson1 lam g).1) →
  (rate_too_large (raw (self w)) = false →
   ∃ out w',
     generate_poisson w = (Ok out, w')
     ∧ cells out
       = (draw_poisson (root_of_count <$> cells (values (raw (self w)))) (rng w)).1
     ∧ Forall P (cells out))
  ∧ (∀ out w',
       generate_poisson w = (Ok out, w') →
       cells out
       = (draw_poisson (root_of_count <$> cells (values (raw (self w)))) (rng w)).1
       ∧ Forall P (cells out)).
Proof.
  intros HP.
  assert (Hall : Forall P
    (draw_poisson (root_of_count <$> cells (values (raw (self w)))) (rng w)).1).
  { eapply Forall2_Forall_r; [apply generate_poisson_cells|].
    apply Forall_forall. intros v _ o (g & ->). apply HP. }
  split.
  - intros Hr. eexists _, _. split; [by apply generate_poisson_eq|]. by split.
  - intros out w' Hg. pose proof (generate_poisson_returned _ _ _ Hg) as Hr.
    rewrite (generate_poisson_eq w Hr) in Hg. injection Hg as <- _. by split.
Qed.
End Perturbation.

Lemma generate_poisson_spec_witness :
  (∃ out g',
     generate_poisson IntModel.fresh
     = (Ok out, mkWorld (self IntModel.fresh) (fs IntModel.fresh) g')
     ∧ shape2 out = Matrix_shape (raw (self IntModel.fresh))
     ∧ Forall2 (λ v o, ∃ g, o = (poisson1 (root_of_count v) g).1)
         (cells (values (raw (self IntModel.fresh)))) (cells out))
  ∧ generate_poisson IntModel.overflowing
    = (Raise (ValueError "lam value too large"), IntModel.overflowing).
Proof.
  split.
  - apply (generate_poisson_spec IntModel.fresh). by vm_compute.
  - apply (generate_poisson_spec IntModel.overflowing). by vm_compute.
Defined.

Lemma zero_cell_draws_witness :
  cells (values (raw (self IntModel.fresh))) !! 1 = Some 0%Z
  ∧ rate_too_large (raw (self IntModel.fresh)) = false
  ∧ (∃ out w', generate_poisson IntModel.fresh = (Ok out, w')
               ∧ cells out !! 1 = Some 0%Z)
  ∧ (∃ msg, generate_gaussian IntModel.fresh
            = (Raise (AttributeError msg), IntModel.fresh)).
Proof.
  split; [reflexivity|]. split; [by vm_compute|].
  assert (Hk : cells (values (raw (self IntModel.fresh))) !! 1 = Some zero)
    by reflexivity.
  destruct (zero_cell_draws IntModel.fresh 1 Hk) as [Hp Hg].
  split; [|exact Hg]. apply Hp. by vm_compute.
Defined.

Lemma generate_poisson_unclamped_witness :
  (∀ lam g : Z, (0 ≤ (poisson1 lam g).1)%Z)
  ∧ rate_too_large (raw (self IntModel.fresh)) = false
  ∧ ∃ out w',
      generate_poisson IntModel.fresh = (Ok out, w')
      ∧ cells out
        = (draw_poisson
             (root_of_count <$> cells (values (raw (self IntModel.fresh))))
             (rng IntModel.fresh)).1
      ∧ Forall (λ v, (0 ≤ v)%Z) (cells out).
Proof.
  assert (Hpos : ∀ lam g : Z, (0 ≤ (poisson1 lam g).1)%Z).
  { intros lam g. simpl. apply Z.mod_pos_bound. lia. }
  split; [exact Hpos|]. split; [by vm_compute|].
  destruct (generate_poisson_unclamped (λ v, (0 ≤ v)%Z) IntModel.fresh Hpos)
    as [Hret _].
  apply Hret. by vm_compute.
Defined.

(** ** Paths *)

Section PathFacts.

Lemma os_path_join_plain (a b : string) :
  a ≠ "" → endswith_sep a = false → startswith_sep b = false →
  os_path_join a b = a +:+ "/" +:+ b.
Proof.
  intros Ha Hend Hb. unfold os_path_join. rewrite Hb, Hend.
  by rewrite bool_decide_eq_false_2.
Qed.

(** Two relative names joined to one folder are one path only when they
    are one name. *)
Lemma os_path_join_inj (a b b' : string) :
  startswith_sep b = false → startswith_sep b' = false →
  os_path_join a b = os_path_join a b' → b = b'.
Proof.
  intros Hb Hb'. unfold os_path_join. rewrite Hb, Hb'.
  destruct (bool_decide (a = "") || endswith_sep a); intros Heq.
  - by apply (inj (String.append a)) in Heq.
  - apply (inj (String.append a)) in Heq. by apply (inj (String.append "/")) in Heq.
Qed.

Lemma pretty_N_go_digit (x : N) (s : string) :
  starts_with_digit s → starts_with_digit (pretty_N_go x s).
Proof.
  revert s. induction (N.lt_wf_0 x) as [x _ IH]; intros s Hs.
  destruct (decide (x = 0)%N) as [->|Hx]; [by rewrite pretty_N_go_0|].
  rewrite pretty_N_go_step by lia. apply IH.
  - apply N.div_lt; lia.
  - simpl. by eexists.
Qed.

Lemma pretty_nat_digit (n : nat) : starts_with_digit (pretty n).
Proof.
  unfold pretty, pretty_nat, pretty, pretty_N.
  case_decide as Hn; [by exists 0%N|].
  rewrite pretty_N_go_step by lia. apply pretty_N_go_digit. simpl. by eexists.
Qed.

Lemma pretty_nat_not_std (n : nat) (s : string) : pretty n +:+ s ≠ "std.m".
Proof.
  pose proof (pretty_nat_digit n) as Hd.
  destruct (pretty n) as [|c rest]; [done|]. destruct Hd as [d ->].
  simpl. intros [= Hc _]. revert Hc. unfold pretty_N_char.
  by repeat case_match.
Qed.

(** No file of a draw is a summary file. *)
Lemma step_file_not_summary (stage : string) (step : nat) (name : string) :
  stage ∈ stage_names → name ∈ summary_names → step_file stage step ≠ name.
Proof.
  unfold stage_names, summary_names, step_file. intros Hs Hn.
  repeat (apply elem_of_cons in Hs as [->|Hs]); [| | |by apply elem_of_nil in Hs];
  repeat (apply elem_of_cons in Hn as [->|Hn]); try (by apply elem_of_nil in Hn);
  simpl; try discriminate.
  intros [= Heq]. by apply pretty_nat_not_std in Heq.
Qed.

Lemma step_file_relative (stage : string) (step : nat) :
  stage ∈ stage_names → startswith_sep (step_file stage step) = false.
Proof.
  unfold stage_names. intros Hs.
  repeat (apply elem_of_cons in Hs as [->|Hs]); [done..|by apply elem_of_nil in Hs].
Qed.

Lemma summary_relative (name : string) :
  name ∈ summary_names → startswith_sep name = false.
Proof.
  unfold summary_names. intros Hn.
  repeat (apply elem_of_cons in Hn as [->|Hn]); [done..|by apply elem_of_nil in Hn].
Qed.

Lemma step_path_not_summary (a stage : string) (step : nat) (name : string) :
  stage ∈ stage_names → name ∈ summary_names →
  os_path_join a (step_file stage step) ≠ os_path_join a name.
Proof.
  intros Hs Hn Heq. apply os_path_join_inj in Heq;
    [by eapply step_file_not_summary|by apply step_file_relative|by apply summary_relative].
Qed.
End PathFacts.

(** ** The checkpointed stages *)

Section StageFacts.
Context {V Rng : Type} `{Numeric V} `{RandomState V Rng}.
Implicit Types (w : world V Rng) (m : Matrix V).

Lemma cached_hit (path : string) w :
  is_file (fs w) path = true → regenerate (self w) = Some false →
  cached path w = (Ok true, w).
Proof.
  intros Hf Hr. unfold cached, bind, os_path_isfile, get_attr, ret.
  by rewrite Hf, Hr.
Qed.

Lemma cached_miss (path : string) w :
  is_file (fs w) path = false ∨ regenerate (self w) = Some true →
  cached path w = (Ok false, w).
Proof.
  intros Hmiss. unfold cached, bind, os_path_isfile, get_attr, ret.
  destruct (is_file (fs w) path) eqn:Hf; [|done].
  destruct Hmiss as [?| ->]; [congruence|done].
Qed.

Lemma cached_frame (path : string) w r w' : cached path w = (r, w') → w' = w.
Proof.
  unfold cached, bind, os_path_isfile, get_attr, ret.
  destruct (is_file (fs w) path); [destruct (regenerate (self w))|]; intros ?; by simplify_eq.
Qed.

Lemma is_file_lookup (files : gmap string (node V)) (path : string) m :
  files !! path = Some (File (Some m)) → is_file files path = true.
Proof. unfold is_file. by intros ->. Qed.

(** A stage on the hit path is the load of its file. *)
Lemma stage_hit {A} (path : string) (k : bool → M V Rng A) w :
  is_file (fs w) path = true → regenerate (self w) = Some false →
  (do hit <- cached path ;; k hit) w = k true w.
Proof. intros Hf Hr. by rewrite (bind_ok _ _ _ _ _ (cached_hit _ _ Hf Hr)). Qed.

Lemma stage_miss {A} (path : string) (k : bool → M V Rng A) w :
  is_file (fs w) path = false ∨ regenerate (self w) = Some true →
  (do hit <- cached path ;; k hit) w = k false w.
Proof. intros Hm. by rewrite (bind_ok _ _ _ _ _ (cached_miss _ _ Hm)). Qed.

Lemma Matrix_load_frame (path : string) w r w' :
  Matrix_load path w = (r, w') → w' = w.
Proof. unfold Matrix_load. repeat case_match; intros ?; by simplify_eq. Qed.

Lemma Matrix_save_frame m (path : string) w r w' :
  Matrix_save m path w = (r, w') →
  self w' = self w ∧ rng w' = rng w ∧ ∀ q, q ≠ path → fs w' !! q = fs w !! q.
Proof.
  unfold Matrix_save. repeat case_match; intros ?; simplify_eq; simpl;
    (split; [done|split; [done|]]); intros q Hq; by rewrite ?lookup_insert_ne.
Qed.

Lemma generate_poisson_frame w r w' :
  generate_poisson w = (r, w') → self w' = self w ∧ fs w' = fs w.
Proof.
  unfold generate_poisson, bind, get_self, with_rng, ret.
  destruct (np_random_poisson _ _) as [[a|e] g]; intros ?; by simplify_eq.
Qed.

Lemma generate_gaussian_frame w r w' :
  generate_gaussian w = (r, w') → self w' = self w ∧ fs w' = fs w.
Proof.
  unfold generate_gaussian, bind, get_self, lift, Matrix_value.
  intros ?; by simplify_eq.
Qed.
End StageFacts.

Section Checkpoints.
Context {V Rng : Type} `{Numeric V} `{RandomState V Rng}.
Implicit Types (w : world V Rng) (m : Matrix V).

Lemma bind_get_self {A} (k : Ensemble V → M V Rng A) w :
  (do s <- get_self ;; k s) w = k (self w) w.
Proof. reflexivity. Qed.

Lemma perturb_frame (method : string) w r w' :
  perturb method w = (r, w') → self w' = self w ∧ fs w' = fs w.
Proof.
  unfold perturb. repeat case_match.
  - apply generate_gaussian_frame.
  - apply generate_poisson_frame.
  - unfold raise. intros ?; by simplify_eq.
Qed.

Lemma step_file_eq (name : string) (step : nat) :
  step_file name step = name +:+ "_" +:+ pretty step +:+ ".m".
Proof. reflexivity. Qed.

(** The three stages, on the path that loads and on the path that
    computes. *)
Lemma generate_raw_hit (step : nat) (method : string) w :
  let path := os_path_join (save_path (self w)) (step_file "raw" step) in
  is_file (fs w) path = true → regenerate (self w) = Some false →
  generate_raw step method w = Matrix_load path w.
Proof.
  intros path Hf Hr. unfold generate_raw. rewrite bind_get_self.
  by rewrite stage_hit.
Qed.

Lemma generate_raw_miss (step : nat) (method : string) w :
  let path := os_path_join (save_path (self w)) (step_file "raw" step) in
  is_file (fs w) path = false ∨ regenerate (self w) = Some true →
  generate_raw step method w
  = (do current <- compute_raw method ;; run Matrix_save current path ;; ret current) w.
Proof.
  intros path Hm. unfold generate_raw. rewrite bind_get_self.
  rewrite stage_miss by done. fold (perturb method).
  unfold compute_raw, bind at 1 3 4.
  destruct (perturb method w) as [[vals|e] w1] eqn:Hp; [|done].
  apply perturb_frame in Hp as [Hs _]. rewrite bind_get_self. unfold ret at 2.
  by rewrite Hs.
Qed.

Lemma unfold_hit (step : nat) (input : Matrix V) w :
  let path := os_path_join (save_path (self w)) (step_file "unfolded" step) in
  is_file (fs w) path = true → regenerate (self w) = Some false →
  unfold step input w = Matrix_load path w.
Proof.
  intros path Hf Hr. unfold unfold. rewrite bind_get_self.
  by rewrite stage_hit.
Qed.

Lemma unfold_miss (step : nat) (input : Matrix V) w :
  let path := os_path_join (save_path (self w)) (step_file "unfolded" step) in
  is_file (fs w) path = false ∨ regenerate (self w) = Some true →
  unfold step input w
  = (do unfolded <- call_unfolder input ;; run Matrix_save unfolded path ;; ret unfolded) w.
Proof.
  intros path Hm. unfold unfold. rewrite bind_get_self.
  by rewrite stage_miss.
Qed.

Lemma first_generation_hit (step : nat) (input : Matrix V) w :
  let path := os_path_join (save_path (self w)) (step_file "firstgen" step) in
  is_file (fs w) path = true → regenerate (self w) = Some false →
  first_generation step input w = Matrix_load path w.
Proof.
  intros path Hf Hr. unfold first_generation. rewrite bind_get_self.
  by rewrite stage_hit.
Qed.

Lemma first_generation_miss (step : nat) (input : Matrix V) w :
  let path := os_path_join (save_path (self w)) (step_file "firstgen" step) in
  is_file (fs w) path = false ∨ regenerate (self w) = Some true →
  first_generation step input w
  = (do firstgen <- call_first_generation input ;;
     run Matrix_save firstgen path ;; ret firstgen) w.
Proof.
  intros path Hm. unfold first_generation. rewrite bind_get_self.
  by rewrite stage_miss.
Qed.

Lemma Matrix_load_file (path : string) m w :
  fs w !! path = Some (File (Some m)) → Matrix_load path w = (Ok m, w).
Proof. unfold Matrix_load. by intros ->. Qed.

Lemma Matrix_save_ok m (path : string) w :
  fs w !! path ≠ Some Dir →
  Matrix_save m path w
  = (Ok tt, mkWorld (self w) (<[path := File (Some m)]> (fs w)) (rng w)).
Proof. unfold Matrix_save. intros Hd. by repeat case_match. Qed.

Lemma compute_then_save (compute : M V Rng (Matrix V)) (path : string) m w w1 :
  compute w = (Ok m, w1) → fs w1 !! path ≠ Some Dir →
  (do x <- compute ;; run Matrix_save x path ;; ret x) w
  = (Ok m, mkWorld (self w1) (<[path := File (Some m)]> (fs w1)) (rng w1)).
Proof.
  intros Hc Hd. rewrite (bind_ok _ _ _ _ _ Hc).
  by rewrite (bind_ok _ _ _ _ _ (Matrix_save_ok m path w1 Hd)).
Qed.

Lemma compute_raise_then_save (compute : M V Rng (Matrix V)) (path : string) e w w1 :
  compute w = (Raise e, w1) →
  (do x <- compute ;; run Matrix_save x path ;; ret x) w = (Raise e, w1).
Proof. apply bind_raise. Qed.

Lemma compute_raw_gaussian w :
  compute_raw "gaussian" w
  = (Raise (AttributeError "'Matrix' object has no attribute 'value'"), w).
Proof. reflexivity. Qed.

(** C6: each of the three stages is checkpointed.  With a saved matrix at
    [{save_path}/{stage}_{step}.m] and [regenerate] false the stage returns
    that matrix and changes nothing (no draw, no write).  Otherwise it is
    the computation of the stage (the perturbation model of the method,
    [Unfolder.unfold], the first generation method) followed by a save at
    exactly that path and the return of what was computed: what the
    computation returns is returned and left saved there, and what it
    raises is raised with nothing saved.  For the method ['gaussian'] the
    computation is [generate_gaussian], which raises on the read of
    [self.raw.value]: on that path the raw stage computes, saves and
    returns nothing. *)
Theorem stages_checkpointed (step : nat) (method : string) (input : Matrix V) w :
  checkpointed "raw" step (compute_raw method) (generate_raw step method) w
  ∧ checkpointed "unfolded" step (call_unfolder input) (unfold step input) w
  ∧ checkpointed "firstgen" step (call_first_generation input)
      (first_generation step input) w
  ∧ (is_file (fs w) (os_path_join (save_path (self w)) (step_file "raw" step)) = false
     ∨ regenerate (self w) = Some true →
     generate_raw step "gaussian" w
     = (Raise (AttributeError "'Matrix' object has no attribute 'value'"), w)).
Proof.
  unfold checkpointed. rewrite <-!step_file_eq.
  split; [|split; [|split]].
  - split.
    + intros m Hm Hr. rewrite generate_raw_hit by eauto using is_file_lookup.
      by apply Matrix_load_file.
    + intros Hmiss. rewrite generate_raw_miss by done. split; [done|]. split.
      * intros m w1 Hc Hd. by apply compute_then_save.
      * intros e w1 Hc. by apply compute_raise_then_save.
  - split.
    + intros m Hm Hr. rewrite unfold_hit by eauto using is_file_lookup.
      by apply Matrix_load_file.
    + intros Hmiss. rewrite unfold_miss by done. split; [done|]. split.
      * intros m w1 Hc Hd. by apply compute_then_save.
      * intros e w1 Hc. by apply compute_raise_then_save.
  - split.
    + intros m Hm Hr. rewrite first_generation_hit by eauto using is_file_lookup.
      by apply Matrix_load_file.
    + intros Hmiss. rewrite first_generation_miss by done. split; [done|]. split.
      * intros m w1 Hc Hd. by apply compute_then_save.
      * intros e w1 Hc. by apply compute_raise_then_save.
  - intros Hmiss. rewrite generate_raw_miss by done.
    apply compute_raise_then_save, compute_raw_gaussian.
Qed.
End Checkpoints.

(** ** What the stages and the loop leave alone *)

Section Frames.
Context {V Rng : Type} `{Numeric V} `{RandomState V Rng}.
Implicit Types (w : world V Rng) (m : Matrix V).

#[global] Instance stage_frame_preorder (path : string) :
  PreOrder (stage_frame (V:=V) (Rng:=Rng) path).
Proof.
  split.
  - by intros w.
  - intros w1 w2 w3 [Hs12 Hf12] [Hs23 Hf23]. split; [congruence|].
    intros q Hq. by rewrite Hf23, Hf12.
Qed.

#[global] Instance same_but_firstgen_preorder : PreOrder (same_but_firstgen (V:=V)).
Proof.
  split.
  - by intros e.
  - unfold same_but_firstgen. intros e1 e2 e3 ? ?. intuition congruence.
Qed.

#[global] Instance loop_frame_preorder : PreOrder (loop_frame (V:=V) (Rng:=Rng)).
Proof.
  split.
  - by intros w.
  - intros w1 w2 w3 [Hs12 Hf12] [Hs23 Hf23]. split; [by etrans|].
    intros q Hq. rewrite Hf23, Hf12; [done..|].
    destruct Hs12 as (_ & -> & _). done.
Qed.

Lemma stage_frame_loop (stage : string) (step : nat) w w' :
  stage ∈ stage_names →
  stage_frame (os_path_join (save_path (self w)) (step_file stage step)) w w' →
  loop_frame w w'.
Proof.
  intros Hs [Hself Hfs]. split; [by rewrite Hself|].
  intros q Hq. apply Hfs. intros ->. apply Hq. by exists stage, step.
Qed.

Lemma ends_in_bind {A B} (R : relation (world V Rng)) `{!Transitive R}
    (c : M V Rng A) (k : A → M V Rng B) w :
  ends_in R c w → (∀ a w1, c w = (Ok a, w1) → ends_in R (k a) w1) →
  ends_in R (bind c k) w.
Proof.
  intros Hc Hk r w' Hb.
  apply bind_inv in Hb as [(a & w1 & Hcw & Hkw)|(e & Hcw & _)].
  - etrans; [by eapply Hc|by eapply Hk].
  - by eapply Hc.
Qed.

Lemma ends_in_same {A} (R : relation (world V Rng)) `{!Reflexive R}
    (c : M V Rng A) w :
  (∀ r w', c w = (r, w') → w' = w) → ends_in R c w.
Proof. intros Hc r w' Hr. by rewrite (Hc _ _ Hr). Qed.

Lemma ends_in_weaken {A} (R R' : relation (world V Rng)) (c : M V Rng A) w :
  (∀ w', R w w' → R' w w') → ends_in R c w → ends_in R' c w.
Proof. intros HR Hc r w' Hr. by eapply HR, Hc. Qed.

Lemma lift_same {A} (x : result A) w r w' : lift (V:=V) (Rng:=Rng) x w = (r, w') → w' = w.
Proof. unfold lift. intros ?; by simplify_eq. Qed.

Lemma raise_same {A} (e : exn) w (r : result A) w' :
  raise (V:=V) (Rng:=Rng) e w = (r, w') → w' = w.
Proof. unfold raise. intros ?; by simplify_eq. Qed.

Lemma ret_same {A} (a : A) w r w' : ret (V:=V) (Rng:=Rng) a w = (r, w') → w' = w.
Proof. unfold ret. intros ?; by simplify_eq. Qed.

Lemma get_attr_same {A} (name : string) (f : Ensemble V → option A) w r w' :
  get_attr (Rng:=Rng) name f w = (r, w') → w' = w.
Proof. unfold get_attr. case_match; intros ?; by simplify_eq. Qed.

Lemma call_unfolder_same (input : Matrix V) w r w' :
  call_unfolder input w = (r, w') → w' = w.
Proof.
  unfold call_unfolder. rewrite bind_get_self.
  case_match; [apply lift_same|apply raise_same].
Qed.

Lemma call_first_generation_same (input : Matrix V) w r w' :
  call_first_generation input w = (r, w') → w' = w.
Proof.
  unfold call_first_generation. rewrite bind_get_self.
  case_match; [apply lift_same|apply raise_same].
Qed.

Lemma compute_raw_frame (method : string) w r w' :
  compute_raw method w = (r, w') → self w' = self w ∧ fs w' = fs w.
Proof.
  unfold compute_raw. intros Hb.
  apply bind_inv in Hb as [(a & w1 & Hp & Hk)|(e & Hp & _)].
  - rewrite bind_get_self in Hk. apply ret_same in Hk as ->. by eapply perturb_frame.
  - by eapply perturb_frame.
Qed.

(** A computation that changes no file and not the ensemble, followed by
    the save of its result, changes the file at the path at most. *)
Lemma compute_then_save_frame (compute : M V Rng (Matrix V)) (path : string) w :
  (∀ r w', compute w = (r, w') → self w' = self w ∧ fs w' = fs w) →
  ends_in (stage_frame path)
    (do x <- compute ;; run Matrix_save x path ;; ret x) w.
Proof.
  intros Hc. apply ends_in_bind; [apply _| |].
  - intros r w' Hr. destruct (Hc _ _ Hr) as [Hs Hf]. split; [done|]. by rewrite Hf.
  - intros x w1 _. apply ends_in_bind; [apply _| |].
    + intros r w' Hr. apply Matrix_save_frame in Hr as (? & _ & ?). by split.
    + intros _ w2 _. apply ends_in_same; [apply _|]. apply ret_same.
Qed.

Lemma cached_raise (path : string) w e w' (A : Type) (k : bool → M V Rng A) :
  cached path w = (Raise e, w') → (do hit <- cached path ;; k hit) w = (Raise e, w).
Proof.
  intros Hc. rewrite (bind_raise _ _ _ _ _ Hc). by rewrite (cached_frame _ _ _ _ Hc).
Qed.

(** Every stage is one of three things, by the outcome of its test. *)
Lemma stage_cases {A} (path : string) (k : bool → M V Rng A) w :
  (do hit <- cached path ;; k hit) w = k true w
  ∨ (do hit <- cached path ;; k hit) w = k false w
  ∨ ∃ e, (do hit <- cached path ;; k hit) w = (Raise e, w).
Proof.
  destruct (cached path w) as [[[|]|e] w1] eqn:Hc.
  - left. rewrite (bind_ok _ _ _ _ _ Hc). by rewrite (cached_frame _ _ _ _ Hc).
  - right; left. rewrite (bind_ok _ _ _ _ _ Hc). by rewrite (cached_frame _ _ _ _ Hc).
  - right; right. exists e. by eapply cached_raise.
Qed.

Lemma stage_ends_in (path : string) (compute : M V Rng (Matrix V)) w :
  (∀ r w', compute w = (r, w') → self w' = self w ∧ fs w' = fs w) →
  ends_in (stage_frame path)
    (do hit <- cached path ;;
     if hit then Matrix_load path
     else do x <- compute ;; run Matrix_save x path ;; ret x) w.
Proof.
  intros Hc r w'. destruct (stage_cases path
    (λ hit : bool, if hit then Matrix_load path
                   else do x <- compute ;; run Matrix_save x path ;; ret x) w)
    as [->|[->|[e ->]]].
  - intros Hl. by rewrite (Matrix_load_frame _ _ _ _ Hl).
  - by apply compute_then_save_frame.
  - intros ?; by simplify_eq.
Qed.
End Frames.

(** ** The loop of [generate] *)

Section Loop.
Context {V Rng : Type} `{Numeric V} `{RandomState V Rng}.
Implicit Types (w : world V Rng) (m : Matrix V) (st : stacks (V:=V)).

(** The three stages in one form: test, then load or compute and save. *)
Lemma generate_raw_eq (step : nat) (method : string) w :
  let path := os_path_join (save_path (self w)) (step_file "raw" step) in
  generate_raw step method w
  = (do hit <- cached path ;;
     if hit then Matrix_load path
     else do x <- compute_raw method ;; run Matrix_save x path ;; ret x) w.
Proof.
  intros path. unfold generate_raw. rewrite bind_get_self. fold path.
  unfold bind at 1 4. destruct (cached path w) as [[[|]|e] w1] eqn:Hc; [done| |done].
  apply cached_frame in Hc as ->. fold (perturb method).
  unfold compute_raw, bind at 1 3 4.
  destruct (perturb method w) as [[vals|e] w1] eqn:Hp; [|done].
  apply perturb_frame in Hp as [Hs _]. rewrite bind_get_self. unfold ret at 2.
  by rewrite Hs.
Qed.

Lemma unfold_eq (step : nat) (input : Matrix V) w :
  let path := os_path_join (save_path (self w)) (step_file "unfolded" step) in
  unfold step input w
  = (do hit <- cached path ;;
     if hit then Matrix_load path
     else do x <- call_unfolder input ;; run Matrix_save x path ;; ret x) w.
Proof.
  intros path. unfold unfold. rewrite bind_get_self. fold path.
  unfold bind at 1 4. destruct (cached path w) as [[[|]|e] w1] eqn:Hc; [done| |done].
  by apply cached_frame in Hc as ->.
Qed.

Lemma first_generation_eq (step : nat) (input : Matrix V) w :
  let path := os_path_join (save_path (self w)) (step_file "firstgen" step) in
  first_generation step input w
  = (do hit <- cached path ;;
     if hit then Matrix_load path
     else do x <- call_first_generation input ;; run Matrix_save x path ;; ret x) w.
Proof.
  intros path. unfold first_generation. rewrite bind_get_self. fold path.
  unfold bind at 1 4. destruct (cached path w) as [[[|]|e] w1] eqn:Hc; [done| |done].
  by apply cached_frame in Hc as ->.
Qed.

Lemma generate_raw_ends_in (step : nat) (method : string) w :
  ends_in (stage_frame (os_path_join (save_path (self w)) (step_file "raw" step)))
    (generate_raw step method) w.
Proof.
  intros r w'. rewrite generate_raw_eq. apply stage_ends_in, compute_raw_frame.
Qed.

Lemma unfold_ends_in (step : nat) (input : Matrix V) w :
  ends_in (stage_frame (os_path_join (save_path (self w)) (step_file "unfolded" step)))
    (unfold step input) w.
Proof.
  intros r w'. rewrite unfold_eq. apply stage_ends_in.
  intros r' w1 Hc. by rewrite (call_unfolder_same _ _ _ _ Hc).
Qed.

Lemma first_generation_ends_in (step : nat) (input : Matrix V) w :
  ends_in (stage_frame (os_path_join (save_path (self w)) (step_file "firstgen" step)))
    (first_generation step input) w.
Proof.
  intros r w'. rewrite first_generation_eq. apply stage_ends_in.
  intros r' w1 Hc. by rewrite (call_first_generation_same _ _ _ _ Hc).
Qed.

Lemma stage_names_raw : "raw" ∈ stage_names.
Proof. unfold stage_names. set_solver. Qed.

Lemma stage_names_unfolded : "unfolded" ∈ stage_names.
Proof. unfold stage_names. set_solver. Qed.

Lemma stage_names_firstgen : "firstgen" ∈ stage_names.
Proof. unfold stage_names. set_solver. Qed.

Lemma draw_ends_in (number : nat) (method : string) (step : nat) st w :
  ends_in loop_frame (draw number method step st) w.
Proof.
  unfold draw. apply ends_in_bind; [apply _| |].
  { eapply ends_in_weaken; [|apply generate_raw_ends_in].
    intros w'. apply stage_frame_loop, stage_names_raw. }
  intros rawm w1 _. apply ends_in_bind; [apply _| |].
  { eapply ends_in_weaken; [|apply unfold_ends_in].
    intros w'. apply stage_frame_loop, stage_names_unfolded. }
  intros unf w2 _. apply ends_in_bind; [apply _| |].
  { eapply ends_in_weaken; [|apply first_generation_ends_in].
    intros w'. apply stage_frame_loop, stage_names_firstgen. }
  intros fg w3 _. apply ends_in_bind; [apply _| |].
  { apply ends_in_same; [apply _|]. apply lift_same. }
  intros re w4 _. apply ends_in_bind; [apply _| |].
  { apply ends_in_same; [apply _|]. apply lift_same. }
  intros ue w5 _. apply ends_in_bind; [apply _| |].
  { intros r w' Hs. unfold set_self in Hs. simplify_eq. by split. }
  intros _ w6 _. apply ends_in_bind; [apply _| |].
  { apply ends_in_same; [apply _|]. apply lift_same. }
  intros fe w7 _. apply ends_in_same; [apply _|]. apply ret_same.
Qed.

Lemma for_each_ends_in {S} (R : relation (world V Rng)) `{!PreOrder R}
    (body : nat → S → M V Rng S) (steps : list nat) (s : S) w :
  (∀ step s' w', ends_in R (body step s') w') →
  ends_in R (for_each steps body s) w.
Proof.
  intros Hbody. revert s w. induction steps as [|step steps IH]; intros s w; simpl.
  - apply ends_in_same; [apply _|]. apply ret_same.
  - apply ends_in_bind; [apply _|apply Hbody|]. intros s' w1 _. apply IH.
Qed.

Lemma for_each_app {S} (body : nat → S → M V Rng S) (l1 l2 : list nat) (s : S) w :
  for_each (l1 ++ l2) body s w
  = (do s' <- for_each l1 body s ;; for_each l2 body s') w.
Proof.
  revert s w. induction l1 as [|x l1 IH]; intros s w; simpl; [reflexivity|].
  unfold bind. destruct (body x s w) as [[s'|e] w1]; [|done].
  rewrite IH. reflexivity.
Qed.

Lemma draws_ends_in (number : nat) (method : string) w :
  ends_in loop_frame (draws number method) w.
Proof.
  unfold draws. intros r w'. rewrite bind_get_self.
  apply for_each_ends_in; [apply _|]. intros. apply draw_ends_in.
Qed.
End Loop.

(** ** Failures *)

Section Failures.
Context {V Rng : Type} `{Numeric V} `{RandomState V Rng}.
Implicit Types (w : world V Rng) (m : Matrix V) (st : stacks (V:=V)).

Lemma generate_eq (number : nat) (method : string) (regen : bool) w :
  generate number method regen w
  = (do st <- for_each (seq 0 number) (draw number method)
                (allocate number (self (started regen w))) ;;
     summarise st) (started regen w).
Proof. reflexivity. Qed.

Lemma seq_split (k number : nat) :
  k < number → seq 0 number = seq 0 k ++ k :: seq (S k) (number - S k).
Proof.
  intros Hk. replace number with (k + S (number - S k)) at 1 by lia.
  by rewrite seq_app.
Qed.

(** A draw that raises after the draws before it returned ends [generate]:
    the call raises the same exception and leaves the world of the draw. *)
Lemma generate_raises_at (number : nat) (method : string) (regen : bool)
    w (k : nat) st wk e w1 :
  k < number →
  for_each (seq 0 k) (draw number method)
    (allocate number (self (started regen w))) (started regen w) = (Ok st, wk) →
  draw number method k st wk = (Raise e, w1) →
  generate number method regen w = (Raise e, w1).
Proof.
  intros Hk Hpre Hdraw. rewrite generate_eq. apply bind_raise.
  rewrite (seq_split k number Hk), for_each_app.
  rewrite (bind_ok _ _ _ _ _ Hpre). simpl. by apply bind_raise.
Qed.

Lemma draw_raises_of_stage (number : nat) (method : string) (k : nat) st wk e w1 :
  stage_fails_at method k wk e w1 → draw number method k st wk = (Raise e, w1).
Proof.
  unfold draw.
  intros [Hr|(rawm & wa & Hr & [Hu|(unf & wb & Hu & Hf)])].
  - by apply bind_raise.
  - rewrite (bind_ok _ _ _ _ _ Hr). by apply bind_raise.
  - rewrite (bind_ok _ _ _ _ _ Hr), (bind_ok _ _ _ _ _ Hu). by apply bind_raise.
Qed.

Lemma summary_not_draw_path (folder name : string) :
  name ∈ summary_names → ¬ draw_path folder (os_path_join folder name).
Proof.
  intros Hn (stage & step & Hs & Heq). symmetry in Heq.
  by apply step_path_not_summary in Heq.
Qed.

(** What the loop leaves alone, from the start of [generate] on. *)
Lemma loop_keeps (number : nat) (method : string) (regen : bool) w (steps : list nat)
    st r w1 :
  for_each steps (draw number method) st (started regen w) = (r, w1) →
  save_path (self w1) = save_path (self w)
  ∧ raw (self w1) = raw (self w)
  ∧ regenerate (self w1) = Some regen
  ∧ std_raw (self w1) = std_raw (self w)
  ∧ std_unfolded (self w1) = std_unfolded (self w)
  ∧ std_firstgen (self w1) = std_firstgen (self w)
  ∧ firstgen_ensemble (self w1) = firstgen_ensemble (self w)
  ∧ (∀ name, name ∈ summary_names →
       fs w1 !! os_path_join (save_path (self w)) name
       = fs w !! os_path_join (save_path (self w)) name).
Proof.
  intros Hrun.
  assert (Hframe : loop_frame (started regen w) w1).
  { eapply (for_each_ends_in loop_frame); [|done]. intros. apply draw_ends_in. }
  destruct Hframe as [(? & ? & ? & ? & ? & ? & ? & ? & ?) Hfs].
  repeat split; try done.
  intros name Hn. apply (Hfs (os_path_join (save_path (self w)) name)).
  by apply summary_not_draw_path.
Qed.

(** C9: when a stage of some draw [k] raises (an unsupported method, a
    storage failure, a missing collaborator), [generate] raises the same
    exception; the three summary files are what they were before the call,
    and so are [std_raw], [std_unfolded], [std_firstgen] and
    [firstgen_ensemble]. *)
Theorem generate_aborts_without_summary (number : nat) (method : string)
    (regen : bool) w (k : nat) st wk e w1 :
  k < number →
  for_each (seq 0 k) (draw number method)
    (allocate number (self (started regen w))) (started regen w) = (Ok st, wk) →
  stage_fails_at method k wk e w1 →
  generate number method regen w = (Raise e, w1)
  ∧ (∀ name, name ∈ summary_names →
       fs w1 !! os_path_join (save_path (self w)) name
       = fs w !! os_path_join (save_path (self w)) name)
  ∧ std_raw (self w1) = std_raw (self w)
  ∧ std_unfolded (self w1) = std_unfolded (self w)
  ∧ std_firstgen (self w1) = std_firstgen (self w)
  ∧ firstgen_ensemble (self w1) = firstgen_ensemble (self w).
Proof.
  intros Hk Hpre Hfail.
  pose proof (draw_raises_of_stage number method k st wk e w1 Hfail) as Hdraw.
  split; [by eapply generate_raises_at|].
  assert (Hrun : for_each (seq 0 k ++ [k]) (draw number method)
            (allocate number (self (started regen w))) (started regen w)
          = (Raise e, w1)).
  { rewrite for_each_app, (bind_ok _ _ _ _ _ Hpre). simpl. by apply bind_raise. }
  apply loop_keeps in Hrun as (_ & _ & _ & ? & ? & ? & ? & ?). done.
Qed.

(** C2, as the code has it: a method name that is neither ['gaussian'] nor
    ['poisson'] makes the raw stage of a draw raise the unsupported-method
    error, with nothing drawn and nothing written, when the raw file of
    that draw is missing or [regenerate] is true; [generate] then raises
    that error.  (With the file there and [regenerate] false the stage
    loads the file and never looks at the method name.) *)
Theorem unsupported_method_aborts (number : nat) (method : string) (regen : bool)
    w (k : nat) st wk :
  method ≠ "gaussian" → method ≠ "poisson" → k < number →
  for_each (seq 0 k) (draw number method)
    (allocate number (self (started regen w))) (started regen w) = (Ok st, wk) →
  regen = true
  ∨ is_file (fs wk) (os_path_join (save_path (self w)) (step_file "raw" k)) = false →
  let err := ValueError ("Method " +:+ method +:+ " is not supported") in
  generate_raw k method wk = (Raise err, wk)
  ∧ generate number method regen w = (Raise err, wk).
Proof.
  intros Hg Hp Hk Hpre Hmiss err.
  destruct (loop_keeps _ _ _ _ _ _ _ _ Hpre) as (Hsp & _ & Hregen & _).
  assert (Hraw : generate_raw k method wk = (Raise err, wk)).
  { rewrite generate_raw_miss.
    - apply bind_raise. unfold compute_raw. apply bind_raise. unfold perturb.
      apply String.eqb_neq in Hg, Hp. by rewrite Hg, Hp.
    - rewrite Hsp, Hregen. destruct Hmiss as [->|?]; auto. }
  split; [done|].
  eapply generate_raises_at; [done..|]. apply draw_raises_of_stage. by left.
Qed.
End Failures.

Lemma unsupported_method_cached_counterexample :
  "bogus" ≠ "gaussian" ∧ "bogus" ≠ "poisson"
  ∧ is_file (fs IntModel.loading_world) "out/raw_0.m" = true
  ∧ regenerate (self IntModel.loading_world) = Some false
  ∧ generate_raw 0 "bogus" IntModel.loading_world
    = (Ok (IntModel.one 9), IntModel.loading_world)
  ∧ (generate 2 "bogus" false IntModel.cached_world).1 = Ok tt.
Proof. repeat split; try done; by vm_compute. Qed.

Lemma unsupported_method_aborts_witness :
  "bogus" ≠ "gaussian" ∧ "bogus" ≠ "poisson"
  ∧ generate_raw 0 "bogus" (started true IntModel.cached_world)
    = (Raise (ValueError "Method bogus is not supported"),
       started true IntModel.cached_world)
  ∧ generate 1 "bogus" true IntModel.cached_world
    = (Raise (ValueError "Method bogus is not supported"),
       started true IntModel.cached_world).
Proof.
  split; [done|]. split; [done|].
  apply (unsupported_method_aborts 1 "bogus" true IntModel.cached_world 0
           (allocate 1 (self (started true IntModel.cached_world)))
           (started true IntModel.cached_world));
    [done|done|lia|reflexivity|by left].
Defined.

Lemma generate_aborts_without_summary_witness :
  ∃ w1,
    stage_fails_at "poisson" 0 (started false IntModel.fresh)
      (AttributeError "'NoneType' object has no attribute 'unfold'") w1
    ∧ generate 2 "poisson" false IntModel.fresh
      = (Raise (AttributeError "'NoneType' object has no attribute 'unfold'"), w1)
    ∧ (∀ name, name ∈ summary_names →
         fs w1 !! os_path_join (save_path (self IntModel.fresh)) name
         = fs IntModel.fresh !! os_path_join (save_path (self IntModel.fresh)) name)
    ∧ std_raw (self w1) = std_raw (self IntModel.fresh)
    ∧ std_unfolded (self w1) = std_unfolded (self IntModel.fresh)
    ∧ std_firstgen (self w1) = std_firstgen (self IntModel.fresh)
    ∧ firstgen_ensemble (self w1) = firstgen_ensemble (self IntModel.fresh).
Proof.
  assert (Hfail : ∃ w1, stage_fails_at "poisson" 0 (started false IntModel.fresh)
            (AttributeError "'NoneType' object has no attribute 'unfold'") w1).
  { eexists. right. eexists _, _. split; [by vm_compute|]. left. by vm_compute. }
  destruct Hfail as [w1 Hfail]. exists w1. split; [exact Hfail|].
  apply (generate_aborts_without_summary 2 "poisson" false IntModel.fresh 0
           (allocate 2 (self (started false IntModel.fresh)))
           (started false IntModel.fresh));
    [lia|reflexivity|exact Hfail].
Defined.

(** ** The stacks and the summaries *)

Section Summaries.
Context {V Rng : Type} `{Numeric V} `{RandomState V Rng}.
Implicit Types (w : world V Rng) (m : Matrix V) (st : stacks (V:=V)).

(** The shape of a stack and the shape of a matrix are never equal: the
    one has three entries, the other two. *)
Lemma stack_shape_differs (e : array3 V) m :
  bool_decide (shape3 e ≠ Matrix_shape m) = true.
Proof. by apply bool_decide_eq_true_2. Qed.

Lemma setitem_zeros_below (number r c step : nat) (a : array2 V) (fe : array3 V) :
  setitem_step (np_zeros3 number r c) step a = Ok fe →
  depth fe = number ∧ rows3 fe = r ∧ cols3 fe = c
  ∧ ∀ i, i < step * (r * c) → cells3 fe !! i = Some zero.
Proof.
  unfold setitem_step; simpl. case_bool_decide as Hstep; [|done].
  destruct (broadcastable r c a); [|done]. intros [= <-]; simpl.
  repeat split. intros i Hi.
  assert (step * (r * c) ≤ number * (r * c)) by nia.
  rewrite lookup_app_l by (rewrite length_take, length_replicate; lia).
  rewrite lookup_take_lt by done. apply lookup_replicate_2. lia.
Qed.

(** What a draw that returns has done. *)
Lemma draw_ok (number : nat) (method : string) (step : nat) st0 w0 st w1 :
  draw number method step st0 w0 = (Ok st, w1) →
  ∃ rawm wa unf wb fg wc,
    generate_raw step method w0 = (Ok rawm, wa)
    ∧ unfold step rawm wa = (Ok unf, wb)
    ∧ first_generation step unf wb = (Ok fg, wc)
    ∧ w1 = mkWorld (set_firstgen fg (self wc)) (fs wc) (rng wc)
    ∧ setitem_step (raw_ensemble st0) step (values rawm) = Ok (raw_ensemble st)
    ∧ setitem_step (unfolded_ensemble st0) step (values unf)
      = Ok (unfolded_ensemble st)
    ∧ setitem_step
        (np_zeros3 number (rows (values fg)) (cols (values fg))) step (values fg)
      = Ok (firstgen_stack st).
Proof.
  unfold draw. intros Hd.
  apply bind_inv_ok in Hd as (rawm & wa & Hraw & Hd).
  apply bind_inv_ok in Hd as (unf & wb & Hunf & Hd).
  apply bind_inv_ok in Hd as (fg & wc & Hfg & Hd).
  apply bind_inv_ok in Hd as (re & w2 & Hre & Hd).
  apply bind_inv_ok in Hd as (ue & w3 & Hue & Hd).
  apply bind_inv_ok in Hd as ([] & w4 & Hset & Hd).
  apply bind_inv_ok in Hd as (fe & w5 & Hfe & Hd).
  rewrite stack_shape_differs in Hfe.
  unfold lift, set_self, ret in *. simplify_eq.
  exists rawm, wa, unf, wb, fg, w3. by repeat split.
Qed.

Lemma Matrix_save_inv m (path : string) w w' :
  Matrix_save m path w = (Ok tt, w') →
  w' = mkWorld (self w) (<[path := File (Some m)]> (fs w)) (rng w).
Proof. unfold Matrix_save. repeat case_match; intros ?; by simplify_eq. Qed.

Lemma summary_paths_differ (folder a b : string) :
  a ∈ summary_names → b ∈ summary_names → a ≠ b →
  os_path_join folder a ≠ os_path_join folder b.
Proof.
  intros Ha Hb Hab Heq. apply Hab.
  by apply os_path_join_inj in Heq; [|apply summary_relative..].
Qed.

Lemma summary_names_raw : "raw.m" ∈ summary_names.
Proof. unfold summary_names. set_solver. Qed.

Lemma summary_names_unfolded : "unfolded_std.m" ∈ summary_names.
Proof. unfold summary_names. set_solver. Qed.

Lemma summary_names_first : "first_std.m" ∈ summary_names.
Proof. unfold summary_names. set_solver. Qed.

(** What a [summarise] that returns has done. *)
Lemma summarise_ok st w w' :
  summarise st w = (Ok tt, w') →
  ∃ fg,
    firstgen (self w) = Some fg
    ∧ let folder := save_path (self w) in
      let sr := mkMatrix (np_std_axis0 (raw_ensemble st))
                  (Eg (raw (self w))) (Ex (raw (self w))) (Some "std") in
      let su := mkMatrix (np_std_axis0 (unfolded_ensemble st))
                  (Eg (raw (self w))) (Ex (raw (self w))) (Some "std") in
      let sf := mkMatrix (np_std_axis0 (firstgen_stack st)) (Eg fg) (Ex fg)
                  (Some "std") in
      w' = mkWorld (set_results sr su sf (firstgen_stack st) (self w))
             (<[os_path_join folder "first_std.m" := File (Some sf)]>
                (<[os_path_join folder "unfolded_std.m" := File (Some su)]>
                   (<[os_path_join folder "raw.m" := File (Some sr)]> (fs w))))
             (rng w).
Proof.
  unfold summarise, save. rewrite bind_get_self. intros Hs.
  apply bind_inv_ok in Hs as ([] & w1 & Hs1 & Hs). rewrite bind_get_self in Hs1.
  apply Matrix_save_inv in Hs1 as ->.
  apply bind_inv_ok in Hs as ([] & w2 & Hs2 & Hs). rewrite bind_get_self in Hs2.
  apply Matrix_save_inv in Hs2 as ->. simpl in Hs.
  apply bind_inv_ok in Hs as (fg & w3 & Hfg & Hs).
  unfold get_attr in Hfg. simpl in Hfg.
  destruct (firstgen (self w)) as [fg'|] eqn:Hattr; [|done]. simplify_eq.
  apply bind_inv_ok in Hs as ([] & w4 & Hs3 & Hs). rewrite bind_get_self in Hs3.
  apply Matrix_save_inv in Hs3 as ->. unfold set_self in Hs. simpl in Hs.
  simplify_eq. by exists fg.
Qed.
End Summaries.

Section Generate.
Context {V Rng : Type} `{Numeric V} `{RandomState V Rng}.
Implicit Types (w : world V Rng) (m : Matrix V) (st : stacks (V:=V)).

(** A run of at least one draw ends with the draw [number - 1]. *)
Lemma loop_last (number : nat) (method : string) w0 st wl :
  0 < number →
  for_each (seq 0 number) (draw number method) (allocate number (self w0)) w0
  = (Ok st, wl) →
  ∃ st0 wk,
    for_each (seq 0 (number - 1)) (draw number method)
      (allocate number (self w0)) w0 = (Ok st0, wk)
    ∧ draw number method (number - 1) st0 wk = (Ok st, wl).
Proof.
  intros Hn. destruct number as [|n]; [lia|].
  replace (S n - 1) with n by lia. rewrite seq_S, for_each_app. intros Hl.
  apply bind_inv_ok in Hl as (st0 & wk & Hpre & Hlast). exists st0, wk.
  split; [done|]. simpl in Hlast.
  apply bind_inv_ok in Hlast as (st' & w' & Hd & Hret).
  unfold ret in Hret. by simplify_eq.
Qed.

(** C1: the test [firstgen_ensemble.shape != firstgen.shape] compares a
    shape of three entries with one of two, so every draw allocates the
    first-generation stack anew.  After a [generate] that returns, whatever
    the shapes of the first-generation matrices, every entry of the stack
    below the final draw is zero: only the final draw's values are kept. *)
Theorem generate_keeps_only_last_firstgen (number : nat) (method : string)
    (regen : bool) w w' :
  generate number method regen w = (Ok tt, w') →
  ∃ fe,
    firstgen_ensemble (self w') = Some fe
    ∧ depth fe = number
    ∧ ∀ i, i < (number - 1) * (rows3 fe * cols3 fe) → cells3 fe !! i = Some zero.
Proof.
  rewrite generate_eq. intros Hg.
  apply bind_inv_ok in Hg as (st & wl & Hloop & Hsum).
  apply summarise_ok in Hsum as (fg & _ & ->). exists (firstgen_stack st).
  split; [done|].
  destruct (decide (number = 0)) as [->|Hn].
  { simpl in Hloop. unfold ret in Hloop. simplify_eq. simpl. split; [done|]. lia. }
  apply loop_last in Hloop as (st0 & wk & _ & Hlast); [|lia].
  apply draw_ok in Hlast as (_ & _ & _ & _ & fg' & _ & _ & _ & _ & _ & _ & _ & Hfe).
  apply setitem_zeros_below in Hfe as (Hd & Hr & Hc & Hz).
  split; [done|]. rewrite Hr, Hc. done.
Qed.

End Generate.

(** ** Runs that only load *)

Section CachedRuns.
Context {V Rng : Type} `{Numeric V} `{RandomState V Rng}.
Implicit Types (w wB : world V Rng) (m : Matrix V) (st : stacks (V:=V)).

(** What loading the file at a path returns. *)
Lemma Matrix_load_eq (path : string) w :
  Matrix_load path w = ((Matrix_load path w).1, w).
Proof. unfold Matrix_load. by repeat case_match. Qed.

Lemma Matrix_load_agree (path : string) w wB :
  fs wB !! path = fs w !! path → (Matrix_load path wB).1 = (Matrix_load path w).1.
Proof. unfold Matrix_load. intros ->. by repeat case_match. Qed.

Lemma is_file_agree (path : string) (files files' : gmap string (node V)) :
  files' !! path = files !! path → is_file files' path = is_file files path.
Proof. unfold is_file. by intros ->. Qed.

Lemma fg_upd_twice (o1 o2 : option (Matrix V)) (e : Ensemble V) :
  fg_upd o2 (fg_upd o1 e) = fg_upd (match o2 with Some _ => o2 | None => o1 end) e.
Proof. by destruct o1, o2. Qed.

Lemma fg_upd_keeps (o : option (Matrix V)) (e : Ensemble V) :
  save_path (fg_upd o e) = save_path e ∧ regenerate (fg_upd o e) = regenerate e
  ∧ raw (fg_upd o e) = raw e.
Proof. by destruct o. Qed.

Lemma load_transfer (path : string) w wB r0 wa :
  fs wB !! path = fs w !! path → Matrix_load path w = (r0, wa) →
  wa = w ∧ Matrix_load path wB = (r0, wB).
Proof.
  unfold Matrix_load. intros ->. repeat case_match; intros ?; by simplify_eq.
Qed.

(** A stage whose file is there, with [regenerate] false, changes nothing
    and does the same in every world with the same file. *)
Lemma file_transfer (stage : string) (step : nat) w wB :
  save_path (self wB) = save_path (self w) →
  is_file (fs w) (os_path_join (save_path (self w)) (step_file stage step)) = true →
  fs wB !! os_path_join (save_path (self w)) (step_file stage step)
  = fs w !! os_path_join (save_path (self w)) (step_file stage step) →
  is_file (fs wB) (os_path_join (save_path (self wB)) (step_file stage step)) = true.
Proof. intros Hsp Hfile Hagree. by rewrite Hsp, (is_file_agree _ _ _ Hagree). Qed.

Lemma generate_raw_transfer (step : nat) (method : string) w wB r0 wa :
  regenerate (self w) = Some false → regenerate (self wB) = Some false →
  save_path (self wB) = save_path (self w) →
  is_file (fs w) (os_path_join (save_path (self w)) (step_file "raw" step)) = true →
  fs wB !! os_path_join (save_path (self w)) (step_file "raw" step)
  = fs w !! os_path_join (save_path (self w)) (step_file "raw" step) →
  generate_raw step method w = (r0, wa) →
  wa = w ∧ generate_raw step method wB = (r0, wB).
Proof.
  intros Hr HrB Hsp Hfile Hagree.
  pose proof (file_transfer _ _ _ _ Hsp Hfile Hagree) as HfB.
  rewrite generate_raw_hit, (generate_raw_hit step method wB), Hsp by done.
  by apply load_transfer.
Qed.

Lemma unfold_transfer (step : nat) (input : Matrix V) w wB r0 wa :
  regenerate (self w) = Some false → regenerate (self wB) = Some false →
  save_path (self wB) = save_path (self w) →
  is_file (fs w) (os_path_join (save_path (self w)) (step_file "unfolded" step)) = true →
  fs wB !! os_path_join (save_path (self w)) (step_file "unfolded" step)
  = fs w !! os_path_join (save_path (self w)) (step_file "unfolded" step) →
  unfold step input w = (r0, wa) →
  wa = w ∧ unfold step input wB = (r0, wB).
Proof.
  intros Hr HrB Hsp Hfile Hagree.
  pose proof (file_transfer _ _ _ _ Hsp Hfile Hagree) as HfB.
  rewrite unfold_hit, (unfold_hit step input wB), Hsp by done.
  by apply load_transfer.
Qed.

Lemma first_generation_transfer (step : nat) (input : Matrix V) w wB r0 wa :
  regenerate (self w) = Some false → regenerate (self wB) = Some false →
  save_path (self wB) = save_path (self w) →
  is_file (fs w) (os_path_join (save_path (self w)) (step_file "firstgen" step)) = true →
  fs wB !! os_path_join (save_path (self w)) (step_file "firstgen" step)
  = fs w !! os_path_join (save_path (self w)) (step_file "firstgen" step) →
  first_generation step input w = (r0, wa) →
  wa = w ∧ first_generation step input wB = (r0, wB).
Proof.
  intros Hr HrB Hsp Hfile Hagree.
  pose proof (file_transfer _ _ _ _ Hsp Hfile Hagree) as HfB.
  rewrite first_generation_hit, (first_generation_hit step input wB), Hsp by done.
  by apply load_transfer.
Qed.

(** A draw all of whose files are there, with [regenerate] false, loads
    its three matrices, changes nothing but [self.firstgen], and does the
    same in every world with the same files for that draw. *)
Lemma draw_cached (number : nat) (method : string) (step : nat) st w wB r w' :
  regenerate (self w) = Some false → regenerate (self wB) = Some false →
  save_path (self wB) = save_path (self w) →
  (∀ stage, stage ∈ stage_names →
     is_file (fs w) (os_path_join (save_path (self w)) (step_file stage step)) = true) →
  (∀ stage, stage ∈ stage_names →
     fs wB !! os_path_join (save_path (self w)) (step_file stage step)
     = fs w !! os_path_join (save_path (self w)) (step_file stage step)) →
  draw number method step st w = (r, w') →
  ∃ o, w' = mkWorld (fg_upd o (self w)) (fs w) (rng w)
       ∧ draw number method step st wB
         = (r, mkWorld (fg_upd o (self wB)) (fs wB) (rng wB)).
Proof.
  intros Hr HrB Hsp Hfiles Hagree. unfold draw. intros Hd.
  apply bind_inv in Hd as [(rawm & wa & Hraw & Hd)|(e & Hraw & ->)];
    eapply generate_raw_transfer in Hraw as [-> HrawB];
    eauto using stage_names_raw;
    [rewrite (bind_ok _ _ _ _ _ HrawB)
    |rewrite (bind_raise _ _ _ _ _ HrawB); exists None; simpl; by rewrite !world_eta].
  apply bind_inv in Hd as [(unf & wa & Hunf & Hd)|(e & Hunf & ->)];
    eapply unfold_transfer in Hunf as [-> HunfB];
    eauto using stage_names_unfolded;
    [rewrite (bind_ok _ _ _ _ _ HunfB)
    |rewrite (bind_raise _ _ _ _ _ HunfB); exists None; simpl; by rewrite !world_eta].
  apply bind_inv in Hd as [(fg & wa & Hfg & Hd)|(e & Hfg & ->)];
    eapply first_generation_transfer in Hfg as [-> HfgB];
    eauto using stage_names_firstgen;
    [rewrite (bind_ok _ _ _ _ _ HfgB)
    |rewrite (bind_raise _ _ _ _ _ HfgB); exists None; simpl; by rewrite !world_eta].
  revert Hd. unfold bind, lift, set_self, ret.
  destruct (setitem_step (raw_ensemble st) step (values rawm)) as [re|e];
    [|intros ?; simplify_eq; exists None; simpl; by rewrite !world_eta].
  destruct (setitem_step (unfolded_ensemble st) step (values unf)) as [ue|e];
    [|intros ?; simplify_eq; exists None; simpl; by rewrite !world_eta].
  simpl. destruct (setitem_step _ step (values fg)) as [fe|e];
    intros ?; simplify_eq; by exists (Some fg).
Qed.
End CachedRuns.

Section Idempotence.
Context {V Rng : Type} `{Numeric V} `{RandomState V Rng}.
Implicit Types (w wB : world V Rng) (m : Matrix V) (st : stacks (V:=V)).

Lemma loop_cached (number : nat) (method : string) (steps : list nat) st w wB r w' :
  regenerate (self w) = Some false → regenerate (self wB) = Some false →
  save_path (self wB) = save_path (self w) →
  (∀ stage step, stage ∈ stage_names → step ∈ steps →
     is_file (fs w) (os_path_join (save_path (self w)) (step_file stage step)) = true) →
  (∀ stage step, stage ∈ stage_names → step ∈ steps →
     fs wB !! os_path_join (save_path (self w)) (step_file stage step)
     = fs w !! os_path_join (save_path (self w)) (step_file stage step)) →
  for_each steps (draw number method) st w = (r, w') →
  ∃ o, w' = mkWorld (fg_upd o (self w)) (fs w) (rng w)
       ∧ for_each steps (draw number method) st wB
         = (r, mkWorld (fg_upd o (self wB)) (fs wB) (rng wB)).
Proof.
  revert st w wB. induction steps as [|step steps IH];
    intros st w wB Hr HrB Hsp Hfiles Hagree; simpl.
  { unfold ret. intros ?; simplify_eq. exists None. simpl. by rewrite !world_eta. }
  intros Hrun.
  apply bind_inv in Hrun as [(st1 & w1 & Hd & Hrun)|(e & Hd & ->)];
    eapply (draw_cached _ _ _ _ w wB) in Hd as (o1 & -> & HdB);
    try done; try (intros; (apply Hfiles || apply Hagree); [done|by constructor]).
  2: { rewrite (bind_raise _ _ _ _ _ HdB). by exists o1. }
  rewrite (bind_ok _ _ _ _ _ HdB).
  destruct (fg_upd_keeps o1 (self w)) as (Hsp1 & Hr1 & _).
  destruct (fg_upd_keeps o1 (self wB)) as (HspB1 & HrB1 & _).
  eapply (IH _ _ (mkWorld (fg_upd o1 (self wB)) (fs wB) (rng wB)))
    in Hrun as (o2 & -> & HrunB); simpl.
  - exists (match o2 with Some _ => o2 | None => o1 end).
    rewrite HrunB. simpl. by rewrite !fg_upd_twice.
  - congruence.
  - congruence.
  - congruence.
  - rewrite Hsp1. intros; apply Hfiles; [done|by constructor].
  - rewrite Hsp1. intros; apply Hagree; [done|by constructor].
Qed.

#[global] Instance summary_frame_preorder : PreOrder (summary_frame (V:=V) (Rng:=Rng)).
Proof.
  split.
  - by intros w.
  - intros w1 w2 w3 (? & ? & Hsp & ? & ? & Hf12) (? & ? & ? & ? & ? & Hf23).
    repeat split; try congruence.
    intros q Hq. rewrite Hf23, Hf12; [done..|]. by rewrite Hsp.
Qed.

Lemma save_eq (x : Matrix V) (name : string) w :
  save x name w = Matrix_save x (os_path_join (save_path (self w)) name) w.
Proof. reflexivity. Qed.

Lemma save_raise_inv (x : Matrix V) (name : string) w e w' :
  save x name w = (Raise e, w') → w' = w.
Proof. rewrite save_eq. unfold Matrix_save. repeat case_match; intros ?; by simplify_eq. Qed.

Lemma save_ok_inv (x : Matrix V) (name : string) w w' :
  save x name w = (Ok tt, w') →
  w' = mkWorld (self w)
         (<[os_path_join (save_path (self w)) name := File (Some x)]> (fs w)) (rng w).
Proof. rewrite save_eq. apply Matrix_save_inv. Qed.

Lemma save_again (x : Matrix V) (name : string) w :
  fs w !! os_path_join (save_path (self w)) name = Some (File (Some x)) →
  save x name w = (Ok tt, w).
Proof.
  intros Hl. rewrite save_eq. unfold Matrix_save. rewrite Hl.
  by rewrite (insert_id _ _ _ Hl), world_eta.
Qed.

Lemma save_ends_in (x : Matrix V) (name : string) w :
  name ∈ summary_names → ends_in summary_frame (save x name) w.
Proof.
  intros Hn r w'. rewrite save_eq. intros Hs.
  apply Matrix_save_frame in Hs as (Hself & Hrng & Hfs).
  unfold summary_frame. rewrite Hself. repeat split; try done.
  intros q Hq. apply Hfs. by apply Hq.
Qed.

Lemma summarise_ends_in st w : ends_in summary_frame (summarise st) w.
Proof.
  unfold summarise. intros r w'. rewrite bind_get_self. revert r w'.
  apply ends_in_bind; [apply _|apply save_ends_in, summary_names_raw|].
  intros _ w1 _. apply ends_in_bind; [apply _|apply save_ends_in, summary_names_unfolded|].
  intros _ w2 _. apply ends_in_bind; [apply _| |].
  { apply ends_in_same; [apply _|]. apply get_attr_same. }
  intros fg w3 _. apply ends_in_bind; [apply _|apply save_ends_in, summary_names_first|].
  intros _ w4 _ r w' Hs. unfold set_self in Hs. simplify_eq. by repeat split.
Qed.
End Idempotence.

Section IdempotenceTheorem.
Context {V Rng : Type} `{Numeric V} `{RandomState V Rng}.
Implicit Types (w wB : world V Rng) (m : Matrix V) (st : stacks (V:=V)).

Lemma summary_lookup_ne {A} (folder a b : string) (x : A) (files : gmap string A) :
  a ∈ summary_names → b ∈ summary_names → a ≠ b →
  <[os_path_join folder a := x]> files !! os_path_join folder b
  = files !! os_path_join folder b.
Proof. intros. by apply lookup_insert_ne, summary_paths_differ. Qed.

(** The part of [generate] after the loop, run again from the world it
    left, does the same and leaves that world. *)
Lemma summarise_idem st w r w1 :
  summarise st w = (r, w1) → summarise st w1 = (r, w1).
Proof.
  unfold summarise. rewrite !bind_get_self. intros Hrun.
  apply bind_inv in Hrun as [([] & wa & Hs1 & Hrun)|(e & Hs1 & ->)].
  2: { rewrite (save_raise_inv _ _ _ _ _ Hs1) in Hs1 |- *. by apply bind_raise. }
  apply save_ok_inv in Hs1 as ->.
  apply bind_inv in Hrun as [([] & wb & Hs2 & Hrun)|(e & Hs2 & ->)].
  2: { rewrite (save_raise_inv _ _ _ _ _ Hs2) in Hs2 |- *.
       rewrite (bind_ok _ _ _ tt _) by (apply save_again, lookup_insert_eq).
       by apply bind_raise. }
  apply save_ok_inv in Hs2 as ->.
  assert (Hagain1 : ∀ x (files : gmap string (node V)) (g : Rng) (e : Ensemble V),
    save_path e = save_path (self w) →
    fs (mkWorld e (<[os_path_join (save_path (self w)) "unfolded_std.m" := x]>
          (<[os_path_join (save_path (self w)) "raw.m" :=
               File (Some (mkMatrix (np_std_axis0 (raw_ensemble st))
                 (Eg (raw (self w))) (Ex (raw (self w))) (Some "std")))]> files)) g)
      !! os_path_join (save_path e) "raw.m"
    = Some (File (Some (mkMatrix (np_std_axis0 (raw_ensemble st))
        (Eg (raw (self w))) (Ex (raw (self w))) (Some "std"))))).
  { intros x files g e ->. simpl.
    rewrite summary_lookup_ne
      by (apply summary_names_unfolded || apply summary_names_raw || done).
    apply lookup_insert_eq. }
  apply bind_inv in Hrun as [(fg & wc & Hattr & Hrun)|(e & Hattr & ->)].
  2: { rewrite (get_attr_same _ _ _ _ _ Hattr) in Hattr |- *.
       rewrite (bind_ok _ _ _ tt _) by (apply save_again, Hagain1; done).
       rewrite (bind_ok _ _ _ tt _) by (apply save_again, lookup_insert_eq).
       by apply bind_raise. }
  pose proof (get_attr_same _ _ _ _ _ Hattr) as ->.
  apply bind_inv in Hrun as [([] & wd & Hs3 & Hrun)|(e & Hs3 & ->)].
  2: { rewrite (save_raise_inv _ _ _ _ _ Hs3) in Hs3 |- *.
       rewrite (bind_ok _ _ _ tt _) by (apply save_again, Hagain1; done).
       rewrite (bind_ok _ _ _ tt _) by (apply save_again, lookup_insert_eq).
       rewrite (bind_ok _ _ _ _ _ Hattr).
       by apply bind_raise. }
  apply save_ok_inv in Hs3 as ->.
  unfold set_self in Hrun. simpl in Hrun. simplify_eq. simpl.
  unfold get_attr in Hattr. simpl in Hattr.
  destruct (firstgen (self w)) as [fg'|] eqn:Hfg; [|done]. simplify_eq.
  rewrite (bind_ok _ _ _ tt _)
    by (apply save_again; simpl;
        rewrite !summary_lookup_ne
          by (apply summary_names_first || apply summary_names_unfolded
              || apply summary_names_raw || done);
        apply lookup_insert_eq).
  rewrite (bind_ok _ _ _ tt _)
    by (apply save_again; simpl;
        rewrite !summary_lookup_ne
          by (apply summary_names_first || apply summary_names_unfolded || done);
        apply lookup_insert_eq).
  rewrite (bind_ok _ _ _ fg _) by (unfold get_attr; simpl; by rewrite Hfg).
  rewrite (bind_ok _ _ _ tt _) by (apply save_again; simpl; apply lookup_insert_eq).
  reflexivity.
Qed.
End IdempotenceTheorem.

Section IdempotenceOfGenerate.
Context {V Rng : Type} `{Numeric V} `{RandomState V Rng}.
Implicit Types (w wB : world V Rng) (m : Matrix V) (st : stacks (V:=V)).

Lemma set_regenerate_id (b : bool) (e : Ensemble V) :
  regenerate e = Some b → set_regenerate b e = e.
Proof. destruct e; simpl. by intros ->. Qed.

Lemma fg_upd_id (o : option (Matrix V)) (e : Ensemble V) :
  (∀ fg, o = Some fg → firstgen e = Some fg) → fg_upd o e = e.
Proof.
  destruct o as [fg|]; [|done]. intros Hfg. specialize (Hfg fg eq_refl).
  destruct e; simpl in *. by subst.
Qed.

Lemma started_id (b : bool) w : regenerate (self w) = Some b → started b w = w.
Proof. intros Hr. unfold started. by rewrite set_regenerate_id, world_eta. Qed.

Lemma allocate_raw (number : nat) (e e' : Ensemble V) :
  raw e' = raw e → allocate number e' = allocate number e.
Proof. unfold allocate. by intros ->. Qed.

(** C8: with every file of every draw there and [regenerate] false,
    [generate] draws nothing (the generator state is what it was), and a
    second call, from the world the first one left, returns or raises as
    the first did and leaves that world as it is: the summaries, as
    attributes and as files, are those of the first call. *)
Theorem generate_cached_idempotent (number : nat) (method : string) w r w1 :
  fully_cached number w →
  generate number method false w = (r, w1) →
  generate number method false w1 = (r, w1) ∧ rng w1 = rng w.
Proof.
  intros Hcached. rewrite !generate_eq. intros Hg.
  assert (Hfiles : ∀ stage step, stage ∈ stage_names → step ∈ seq 0 number →
    is_file (fs (started false w))
      (os_path_join (save_path (self (started false w))) (step_file stage step)) = true).
  { intros stage step Hs Hstep. apply Hcached; [done|].
    apply elem_of_seq in Hstep. lia. }
  apply bind_inv in Hg as [(st & wl & Hloop & Hsum)|(e & Hloop & ->)].
  - destruct (loop_cached number method (seq 0 number) _
                (started false w) (started false w) _ _
                eq_refl eq_refl eq_refl Hfiles (λ _ _ _ _, eq_refl) Hloop)
      as (o & Hwl & _).
    pose proof (summarise_ends_in st wl _ _ Hsum)
      as (Hrng & Hraw & Hsp & Hregen & Hfg & Hfs).
    assert (Hr1 : regenerate (self w1) = Some false).
    { rewrite Hregen, Hwl. simpl. by destruct o. }
    rewrite (started_id false w1 Hr1).
    assert (Hraw1 : raw (self w1) = raw (self (started false w))).
    { rewrite Hraw, Hwl. simpl. by destruct o. }
    assert (Hsp1 : save_path (self w1) = save_path (self (started false w))).
    { rewrite Hsp, Hwl. simpl. by destruct o. }
    rewrite (allocate_raw number _ _ Hraw1).
    eapply (loop_cached _ _ _ _ (started false w) w1) in Hloop
      as (o' & Hwl' & HloopB); try done.
    2: { intros stage step Hs Hstep. rewrite Hfs; [by rewrite Hwl|].
         intros name Hn. rewrite Hwl. simpl.
         replace (save_path (fg_upd o (set_regenerate false (self w))))
           with (save_path (self w)) by (by destruct o).
         by apply step_path_not_summary. }
    split; [|by rewrite Hrng, Hwl].
    rewrite (bind_ok _ _ _ _ _ HloopB).
    rewrite fg_upd_id, world_eta; [by eapply summarise_idem|].
    intros fg ->. rewrite Hfg, Hwl'. done.
  - destruct (loop_cached number method (seq 0 number) _
                (started false w) (started false w) _ _
                eq_refl eq_refl eq_refl Hfiles (λ _ _ _ _, eq_refl) Hloop)
      as (o & Hw1 & _).
    assert (Hr1 : regenerate (self w1) = Some false).
    { rewrite Hw1. simpl. by destruct o. }
    rewrite (started_id false w1 Hr1).
    assert (Hraw1 : raw (self w1) = raw (self (started false w))).
    { rewrite Hw1. simpl. by destruct o. }
    rewrite (allocate_raw number _ _ Hraw1).
    eapply (loop_cached _ _ _ _ (started false w) w1) in Hloop
      as (o' & Hw1' & HloopB); try done.
    2: { rewrite Hw1. simpl. by destruct o. }
    2: { intros stage step Hs Hstep. by rewrite Hw1. }
    split; [|by rewrite Hw1].
    rewrite (bind_raise _ _ _ _ _ HloopB).
    rewrite fg_upd_id, world_eta; [done|].
    intros fg ->. by rewrite Hw1'.
Qed.
End IdempotenceOfGenerate.

(** ** The properties on the integer instance *)

(** Two cached draws whose first-generation matrices have one shape and the
    values 5 and 7: the first-generation stack [generate] keeps is
    [[0], [7]], and the standard deviation it reports is that of 0 and 7. *)
Example two_draws_firstgen_stack :
  let out := generate 2 "poisson" false IntModel.cached_world in
  out.1 = Ok tt
  ∧ firstgen_ensemble (self out.2) = Some (Array3 2 1 1 [0; 7]%Z)
  ∧ values <$> std_firstgen (self out.2) = Some (Array2 1 1 [3%Z]).
Proof. by vm_compute. Qed.

(** A run with the method ['gaussian'] that has to compute a draw aborts
    on the read of [self.raw.value]. *)
Example gaussian_run_aborts :
  (generate 1 "gaussian" true IntModel.computing_world).1
  = Raise (AttributeError "'Matrix' object has no attribute 'value'").
Proof. by vm_compute. Qed.

Lemma generate_keeps_only_last_firstgen_witness :
  let out := generate 2 "poisson" false IntModel.cached_world in
  out.1 = Ok tt
  ∧ ∃ fe,
      firstgen_ensemble (self out.2) = Some fe
      ∧ depth fe = 2
      ∧ ∀ i, i < (2 - 1) * (rows3 fe * cols3 fe) → cells3 fe !! i = Some 0%Z.
Proof.
  split; [by vm_compute|].
  assert (Hrun : generate 2 "poisson" false IntModel.cached_world
                 = (Ok tt, (generate 2 "poisson" false IntModel.cached_world).2))
    by (by vm_compute).
  exact (generate_keeps_only_last_firstgen 2 "poisson" false
           IntModel.cached_world _ Hrun).
Defined.

Lemma stages_checkpointed_witness :
  generate_raw 0 "poisson" IntModel.loading_world
  = (Ok (IntModel.one 9), IntModel.loading_world)
  ∧ generate_raw 0 "poisson" IntModel.computing_world
    = (Ok (IntModel.one 1),
       mkWorld (self IntModel.computing_world)
         (<["out/raw_0.m" := File (Some (IntModel.one 1))]> IntModel.two_draws)
         149%Z)
  ∧ generate_raw 0 "gaussian" IntModel.computing_world
    = (Raise (AttributeError "'Matrix' object has no attribute 'value'"),
       IntModel.computing_world)
  ∧ unfold 0 (IntModel.one 3) IntModel.computing_world
    = (Ok (IntModel.one 3),
       mkWorld (self IntModel.computing_world)
         (<["out/unfolded_0.m" := File (Some (IntModel.one 3))]> IntModel.two_draws)
         1%Z)
  ∧ first_generation 0 (IntModel.one 3) IntModel.computing_world
    = (Ok (IntModel.one 3),
       mkWorld (self IntModel.computing_world)
         (<["out/firstgen_0.m" := File (Some (IntModel.one 3))]> IntModel.two_draws)
         1%Z).
Proof.
  destruct (stages_checkpointed 0 "poisson" (IntModel.one 3) IntModel.loading_world)
    as ((Hhit & _) & _).
  destruct (stages_checkpointed 0 "poisson" (IntModel.one 3) IntModel.computing_world)
    as ((_ & Hraw) & (_ & Hunf) & (_ & Hfg) & Hgauss).
  destruct (Hraw (or_intror eq_refl)) as (_ & Hraw_ok & _).
  destruct (Hunf (or_intror eq_refl)) as (_ & Hunf_ok & _).
  destruct (Hfg (or_intror eq_refl)) as (_ & Hfg_ok & _).
  split; [|split; [|split; [|split]]].
  - apply Hhit; by vm_compute.
  - apply (Hraw_ok (IntModel.one 1)
             (mkWorld (self IntModel.computing_world) IntModel.two_draws 149%Z));
      by vm_compute.
  - apply Hgauss. by right.
  - apply (Hunf_ok (IntModel.one 3) IntModel.computing_world); by vm_compute.
  - apply (Hfg_ok (IntModel.one 3) IntModel.computing_world); by vm_compute.
Defined.

Lemma two_draws_fully_cached : fully_cached 2 IntModel.cached_world.
Proof.
  intros stage step Hs Hstep. unfold stage_names in Hs.
  assert (step = 0 ∨ step = 1) as [-> | ->] by lia;
    repeat (apply elem_of_cons in Hs as [->|Hs]);
    try (by apply elem_of_nil in Hs); by vm_compute.
Defined.

Lemma generate_cached_idempotent_witness :
  let out := generate 2 "poisson" false IntModel.cached_world in
  fully_cached 2 IntModel.cached_world
  ∧ generate 2 "poisson" false out.2 = out
  ∧ rng out.2 = rng IntModel.cached_world.
Proof.
  intros out. split; [apply two_draws_fully_cached|].
  destruct (generate_cached_idempotent 2 "poisson" IntModel.cached_world
              out.1 out.2 two_draws_fully_cached) as [Hagain Hrng].
  - apply surjective_pairing.
  - split; [|exact Hrng]. rewrite Hagain. symmetry. apply surjective_pairing.
Defined.

(** * Further properties of the stages *)

Section StageProperties.
Context {V Rng : Type} `{Numeric V} `{RandomState V Rng}.
Implicit Types (w : world V Rng) (m : Matrix V) (c : stage_call (V:=V)).

Lemma stage_name_in c : stage_name c ∈ stage_names.
Proof. destruct c; [apply stage_names_raw|apply stage_names_unfolded|apply stage_names_firstgen]. Qed.

(** Every stage is the same test, load, or compute and save. *)
Lemma run_stage_eq c (step : nat) w :
  run_stage c step w
  = (do hit <- cached (stage_path c step w) ;;
     if hit then Matrix_load (stage_path c step w)
     else do x <- stage_compute c ;;
          run Matrix_save x (stage_path c step w) ;; ret x) w.
Proof.
  destruct c; [apply generate_raw_eq|apply unfold_eq|apply first_generation_eq].
Qed.

Lemma stage_compute_frame c w r w1 :
  stage_compute c w = (r, w1) → self w1 = self w ∧ fs w1 = fs w.
Proof.
  destruct c; simpl; intros Hc.
  - by eapply compute_raw_frame.
  - by rewrite (call_unfolder_same _ _ _ _ Hc).
  - by rewrite (call_first_generation_same _ _ _ _ Hc).
Qed.

Lemma stage_compute_same c w r w1 :
  stage_name c ≠ "raw" → stage_compute c w = (r, w1) → w1 = w.
Proof.
  destruct c; simpl; [done|intros _|intros _].
  - apply call_unfolder_same.
  - apply call_first_generation_same.
Qed.

(** The three outcomes of a stage: it loaded, it computed and saved, or its
    test raised. *)
Lemma run_stage_cases c (step : nat) w :
  run_stage c step w = Matrix_load (stage_path c step w) w
  ∨ run_stage c step w
    = (do x <- stage_compute c ;;
       run Matrix_save x (stage_path c step w) ;; ret x) w
  ∨ ∃ e, run_stage c step w = (Raise e, w).
Proof.
  rewrite run_stage_eq.
  destruct (stage_cases (stage_path c step w)
    (λ hit : bool, if hit then Matrix_load (stage_path c step w)
                   else do x <- stage_compute c ;;
                        run Matrix_save x (stage_path c step w) ;; ret x) w)
    as [->|[->|[e ->]]]; eauto.
Qed.

Lemma run_stage_frame c (step : nat) w r w' :
  run_stage c step w = (r, w') → stage_frame (stage_path c step w) w w'.
Proof.
  rewrite run_stage_eq. apply stage_ends_in.
  intros r1 w1. apply stage_compute_frame.
Qed.

Lemma run_stage_saved c (step : nat) w m w' :
  run_stage c step w = (Ok m, w') →
  fs w' !! stage_path c step w = Some (File (Some m)).
Proof.
  destruct (run_stage_cases c step w) as [->|[->|[e ->]]]; [| |done].
  - unfold Matrix_load. repeat case_match; intros ?; by simplify_eq.
  - intros Hrun. apply bind_inv_ok in Hrun as (x & w1 & _ & Hrun).
    apply bind_inv_ok in Hrun as ([] & w2 & Hsave & Hret).
    apply Matrix_save_inv in Hsave as ->. unfold ret in Hret. simplify_eq.
    simpl. apply lookup_insert_eq.
Qed.

(** X2: a stage changes neither the ensemble nor any file but its own; the
    stages [unfold] and [first_generation] never advance the random
    generator, and a stage that finds its file and [regenerate] false
    changes nothing at all. *)
Theorem stage_touches_only_its_file c (step : nat) w r w' :
  run_stage c step w = (r, w') →
  self w' = self w
  ∧ (∀ q, q ≠ stage_path c step w → fs w' !! q = fs w !! q)
  ∧ (stage_name c ≠ "raw" → rng w' = rng w)
  ∧ (is_file (fs w) (stage_path c step w) = true →
     regenerate (self w) = Some false → w' = w).
Proof.
  intros Hrun.
  destruct (run_stage_frame _ _ _ _ _ Hrun) as [Hself Hfs].
  repeat split; [done|done| |].
  - intros Hname. revert Hrun.
    destruct (run_stage_cases c step w) as [->|[->|[e ->]]].
    + intros Hl. by rewrite (Matrix_load_frame _ _ _ _ Hl).
    + intros Hrun.
      apply bind_inv in Hrun as [(x & w1 & Hc & Hrun)|(e & Hc & _)];
        apply (stage_compute_same _ _ _ _ Hname) in Hc as ->; [|done].
      apply bind_inv in Hrun as [([] & w2 & Hs & Hret)|(e & Hs & _)];
        apply Matrix_save_frame in Hs as (_ & Hrng & _); [|done].
      unfold ret in Hret. by simplify_eq.
    + intros ?; by simplify_eq.
  - intros Hfile Hregen. revert Hrun. rewrite run_stage_eq, stage_hit by done.
    apply Matrix_load_frame.
Qed.

(** X1: whenever a stage returns a matrix, loaded or computed, the file at the
    path of the stage holds that matrix afterwards; with [regenerate] false
    the stage, run again for the same draw, returns the same matrix,
    whatever method or input it is given the second time, and changes
    nothing. *)
Theorem stage_round_trip c c' (step : nat) w m w' :
  run_stage c step w = (Ok m, w') →
  fs w' !! stage_path c step w = Some (File (Some m))
  ∧ (regenerate (self w) = Some false → stage_name c' = stage_name c →
     run_stage c' step w' = (Ok m, w')).
Proof.
  intros Hrun.
  pose proof (run_stage_saved _ _ _ _ _ Hrun) as Hsaved.
  split; [done|]. intros Hregen Hname.
  destruct (run_stage_frame _ _ _ _ _ Hrun) as (Hself & _).
  assert (Hpath : stage_path c' step w' = stage_path c step w).
  { unfold stage_path. by rewrite Hname, Hself. }
  rewrite run_stage_eq, Hpath, stage_hit.
  - by apply Matrix_load_file.
  - by eapply is_file_lookup.
  - by rewrite Hself.
Qed.
End StageProperties.

Section FreshEnsemble.
Context {V Rng : Type} `{Numeric V} `{RandomState V Rng}.
Implicit Types (w : world V Rng) (m : Matrix V) (c : stage_call (V:=V)).

Lemma init_is_file (raw : Matrix V) (folder : string) (files : gmap string (node V))
    (g : Rng) (q : string) :
  is_file (fs (Ensemble_init raw folder files g)) q = is_file files q.
Proof.
  unfold Ensemble_init, is_file; simpl.
  destruct (files !! folder) eqn:Hf; [done|].
  destruct (decide (q = folder)) as [->|Hq].
  - by rewrite lookup_insert_eq, Hf.
  - by rewrite lookup_insert_ne.
Qed.

(** X3: [__init__] does not assign [regenerate]; only [generate] does.  On an
    ensemble that has just been constructed, a stage called for a draw
    whose file is there raises [AttributeError] on [self.regenerate] and
    changes nothing; for a draw whose file is not there the test stops at
    [os.path.isfile] and the stage computes and saves. *)
Theorem stage_before_generate c (step : nat) (raw : Matrix V) (folder : string)
    (files : gmap string (node V)) (g : Rng) :
  let w := Ensemble_init raw folder files g in
  let path := os_path_join folder (step_file (stage_name c) step) in
  (is_file files path = true →
   run_stage c step w
   = (Raise (AttributeError "'Ensemble' object has no attribute 'regenerate'"), w))
  ∧ (is_file files path = false →
     run_stage c step w
     = (do x <- stage_compute c ;; run Matrix_save x path ;; ret x) w).
Proof.
  intros w path.
  assert (Hpath : stage_path c step w = path) by reflexivity.
  assert (Hinit : ∀ q, is_file (fs w) q = is_file files q)
    by apply init_is_file.
  split; intros Hfile.
  - rewrite run_stage_eq, Hpath. apply bind_raise.
    unfold cached, bind, os_path_isfile, get_attr.
    by rewrite Hinit, Hfile.
  - rewrite run_stage_eq, Hpath. apply stage_miss. left. by rewrite Hinit.
Qed.

(** X4: a collaborator that was never assigned is noticed at the first draw
    that has to be computed: [generate] raises [AttributeError] for a
    missing unfolder, leaving the raw matrix of that draw saved, and
    [TypeError] for a missing first generation method, leaving the unfolded
    matrix of that draw saved. *)
Theorem missing_collaborator_aborts (number : nat) (method : string) (regen : bool)
    w (k : nat) (st : stacks (V:=V)) wk rawm wa :
  k < number →
  for_each (seq 0 k) (draw number method)
    (allocate number (self (started regen w))) (started regen w) = (Ok st, wk) →
  generate_raw k method wk = (Ok rawm, wa) →
  (unfolder (self w) = None →
   regen = true
   ∨ is_file (fs wa) (os_path_join (save_path (self w)) (step_file "unfolded" k)) = false →
   generate number method regen w
   = (Raise (AttributeError "'NoneType' object has no attribute 'unfold'"), wa)
   ∧ fs wa !! os_path_join (save_path (self w)) (step_file "raw" k)
     = Some (File (Some rawm)))
  ∧ (first_generation_method (self w) = None →
     ∀ unf wb, unfold k rawm wa = (Ok unf, wb) →
     regen = true
     ∨ is_file (fs wb) (os_path_join (save_path (self w)) (step_file "firstgen" k))
       = false →
     generate number method regen w
     = (Raise (TypeError "'NoneType' object is not callable"), wb)
     ∧ fs wb !! os_path_join (save_path (self w)) (step_file "unfolded" k)
       = Some (File (Some unf))).
Proof.
  intros Hk Hpre Hraw.
  assert (Hloop : loop_frame (started regen w) wk).
  { eapply (for_each_ends_in loop_frame); [|done]. intros. apply draw_ends_in. }
  destruct Hloop as [(_ & Hsp & Hunf & Hfgm & Hregen & _) _]. simpl in *.
  destruct (run_stage_frame (RawStage method) _ _ _ _ Hraw) as [Hselfa _].
  split.
  - intros Hnone Hmiss. split.
    + eapply generate_raises_at; [done..|]. apply draw_raises_of_stage.
      right. exists rawm, wa. split; [done|]. left.
      rewrite unfold_miss.
      * apply bind_raise. unfold call_unfolder. rewrite bind_get_self.
        by rewrite Hselfa, Hunf, Hnone.
      * rewrite Hselfa, Hsp, Hregen. destruct Hmiss as [->|?]; auto.
    + rewrite <-Hsp. apply (run_stage_saved (RawStage method) _ _ _ _ Hraw).
  - intros Hnone unf wb Hu Hmiss.
    destruct (run_stage_frame (UnfoldStage rawm) _ _ _ _ Hu) as [Hselfb _].
    split.
    + eapply generate_raises_at; [done..|]. apply draw_raises_of_stage.
      right. exists rawm, wa. split; [done|]. right. exists unf, wb.
      split; [done|]. rewrite first_generation_miss.
      * apply bind_raise. unfold call_first_generation. rewrite bind_get_self.
        by rewrite Hselfb, Hselfa, Hfgm, Hnone.
      * rewrite Hselfb, Hselfa, Hsp, Hregen. destruct Hmiss as [->|?]; auto.
    + rewrite <-Hsp, <-Hselfa. apply (run_stage_saved (UnfoldStage rawm) _ _ _ _ Hu).
Qed.
End FreshEnsemble.

(** ** The names of the files *)

Lemma string_length_append (a b : string) :
  String.length (a +:+ b) = String.length a + String.length b.
Proof. induction a as [|x a IH]; simpl; [done|]. by rewrite IH. Qed.

Lemma string_append_inj_r (s1 s2 t : string) : s1 +:+ t = s2 +:+ t → s1 = s2.
Proof.
  intros Heq.
  assert (Hlen : String.length s1 = String.length s2).
  { apply (f_equal String.length) in Heq.
    rewrite !string_length_append in Heq. lia. }
  revert s2 Heq Hlen.
  induction s1 as [|a s1 IH]; intros [|b s2] Heq Hlen; simpl in *; try done.
  injection Heq as -> Heq. f_equal. apply IH; [done|]. by injection Hlen.
Qed.

Lemma step_file_inj (s s' : string) (n n' : nat) :
  s ∈ stage_names → s' ∈ stage_names →
  step_file s n = step_file s' n' → s = s' ∧ n = n'.
Proof.
  unfold stage_names, step_file. intros Hs Hs'.
  repeat (apply elem_of_cons in Hs as [->|Hs]); [| | |by apply elem_of_nil in Hs];
  repeat (apply elem_of_cons in Hs' as [->|Hs']); try (by apply elem_of_nil in Hs');
  simpl; try discriminate; intros [= Heq]; split; try done;
  apply (string_append_inj_r (pretty n) (pretty n') ".m") in Heq;
  by apply (inj pretty) in Heq.
Qed.

(** X5: the files [generate] writes never share a path: two files of draws
    are one path only for one stage and one draw, no file of a draw is a
    summary file, and the three summary files are three paths. *)
Theorem artifact_paths_distinct (folder : string) :
  (∀ s s' n n', s ∈ stage_names → s' ∈ stage_names →
     os_path_join folder (step_file s n) = os_path_join folder (step_file s' n') →
     s = s' ∧ n = n')
  ∧ (∀ s n name, s ∈ stage_names → name ∈ summary_names →
       os_path_join folder (step_file s n) ≠ os_path_join folder name)
  ∧ (∀ a b, a ∈ summary_names → b ∈ summary_names →
       os_path_join folder a = os_path_join folder b → a = b).
Proof.
  split; [|split].
  - intros s s' n n' Hs Hs' Heq.
    apply os_path_join_inj in Heq; [|by apply step_file_relative..].
    by apply step_file_inj.
  - intros s n name Hs Hn. by apply step_path_not_summary.
  - intros a b Ha Hb Heq. by apply os_path_join_inj in Heq; [|apply summary_relative..].
Qed.

(** * Further properties of [generate] *)

Section CachedMethod.
Context {V Rng : Type} `{Numeric V} `{RandomState V Rng}.
Implicit Types (w : world V Rng) (m : Matrix V) (st : stacks (V:=V)).

Lemma bind_cong_l {A B} (c c' : M V Rng A) (k : A → M V Rng B) w :
  c w = c' w → bind c k w = bind c' k w.
Proof. unfold bind. by intros ->. Qed.

Lemma bind_ret {A B} (a : A) (k : A → M V Rng B) w : bind (ret a) k w = k a w.
Proof. reflexivity. Qed.

Lemma draw_cached_method (number : nat) (method method' : string) (step : nat) st w :
  regenerate (self w) = Some false →
  is_file (fs w) (os_path_join (save_path (self w)) (step_file "raw" step)) = true →
  draw number method step st w = draw number method' step st w.
Proof.
  intros Hr Hfile. unfold draw. apply bind_cong_l.
  by rewrite !generate_raw_hit.
Qed.

Lemma loop_cached_method (number : nat) (method method' : string)
    (steps : list nat) st w :
  regenerate (self w) = Some false →
  (∀ stage step, stage ∈ stage_names → step ∈ steps →
     is_file (fs w) (os_path_join (save_path (self w)) (step_file stage step)) = true) →
  for_each steps (draw number method) st w
  = for_each steps (draw number method') st w.
Proof.
  revert st w. induction steps as [|step steps IH]; intros st w Hr Hfiles; [done|].
  simpl. unfold bind.
  rewrite <-(draw_cached_method number method method' step st w Hr
               (Hfiles _ _ stage_names_raw (list_elem_of_here _ _))).
  destruct (draw number method step st w) as [[st1|e] w1] eqn:Hd; [|done].
  eapply (draw_cached _ _ _ _ w w) in Hd as (o & -> & _); try done.
  2: { intros. apply Hfiles; [done|by constructor]. }
  destruct (fg_upd_keeps o (self w)) as (Hsp1 & Hr1 & _).
  apply IH; simpl; [congruence|].
  rewrite Hsp1. intros. apply Hfiles; [done|by constructor].
Qed.

(** X6: with every file of every draw there and [regenerate] false, the
    method name plays no part: [generate] returns, or raises, the same and
    leaves the same world for any two method names, supported or not. *)
Theorem cached_run_ignores_method (number : nat) (method method' : string) w :
  fully_cached number w →
  generate number method false w = generate number method' false w.
Proof.
  intros Hcached. rewrite !generate_eq. apply bind_cong_l.
  apply loop_cached_method; [done|].
  intros stage step Hs Hstep. apply Hcached; [done|].
  apply elem_of_seq in Hstep. lia.
Qed.

(** X7: with no draw to make, [generate] still writes the raw and the unfolded
    summary, of empty stacks, and then reads [self.firstgen]: on an
    ensemble that never completed a draw it raises [AttributeError] with
    two of the three summary files written and no attribute assigned. *)
Theorem generate_without_draws (method : string) (regen : bool) w :
  firstgen (self w) = None →
  fs w !! os_path_join (save_path (self w)) "raw.m" ≠ Some Dir →
  fs w !! os_path_join (save_path (self w)) "unfolded_std.m" ≠ Some Dir →
  let empty := np_zeros3 0 (rows (values (raw (self w)))) (cols (values (raw (self w)))) in
  let summary := mkMatrix (np_std_axis0 empty) (Eg (raw (self w))) (Ex (raw (self w)))
                   (Some "std") in
  generate 0 method regen w
  = (Raise (AttributeError "'Ensemble' object has no attribute 'firstgen'"),
     mkWorld (set_regenerate regen (self w))
       (<[os_path_join (save_path (self w)) "unfolded_std.m" := File (Some summary)]>
          (<[os_path_join (save_path (self w)) "raw.m" := File (Some summary)]> (fs w)))
       (rng w)).
Proof.
  intros Hfg Hraw Hunf empty summary. rewrite generate_eq.
  change (seq 0 0) with (@nil nat). cbn [for_each]. rewrite bind_ret.
  unfold summarise. rewrite bind_get_self.
  rewrite (bind_ok _ _ _ tt _) by (rewrite save_eq; by apply Matrix_save_ok).
  rewrite (bind_ok _ _ _ tt _)
    by (rewrite save_eq; apply Matrix_save_ok; simpl;
        by rewrite summary_lookup_ne
          by (apply summary_names_raw || apply summary_names_unfolded || done)).
  apply bind_raise. unfold get_attr. simpl. by rewrite Hfg.
Qed.
End CachedMethod.

Section RunFrame.
Context {V Rng : Type} `{Numeric V} `{RandomState V Rng}.
Implicit Types (w : world V Rng) (m : Matrix V) (st : stacks (V:=V))
  (c : stage_call (V:=V)).

#[global] Instance only_adds_preorder : PreOrder (only_adds (V:=V) (Rng:=Rng)).
Proof.
  split.
  - intros w q. by left.
  - intros w1 w2 w3 H12 H23 q.
    destruct (H23 q) as [Heq23|[Hm Hd]], (H12 q) as [Heq12|[Hm' Hd']].
    + left. congruence.
    + right. split; [|done]. by rewrite Heq23.
    + right. split; [done|]. by rewrite <-Heq12.
    + right. by split.
Qed.

#[global] Instance run_frame_preorder : PreOrder (run_frame (V:=V) (Rng:=Rng)).
Proof.
  split.
  - intros w. by repeat split.
  - intros w1 w2 w3 (? & Hsp & ? & ? & Ha12 & Hf12) (? & ? & ? & ? & Ha23 & Hf23).
    repeat split; try congruence; [by etrans|].
    intros q Hd Hs. rewrite Hf23, Hf12; [done..| |]; by rewrite Hsp.
Qed.

Lemma run_frame_same_fs w w' :
  self w' = self w → fs w' = fs w → run_frame w w'.
Proof.
  intros Hs Hf. unfold run_frame. rewrite Hs. repeat split; try done.
  - intros q. left. by rewrite Hf.
  - intros q _ _. by rewrite Hf.
Qed.

Lemma Matrix_save_run_frame m (path : string) w :
  draw_path (save_path (self w)) path
  ∨ (∃ name, name ∈ summary_names ∧ path = os_path_join (save_path (self w)) name) →
  ends_in run_frame (Matrix_save m path) w.
Proof.
  intros Hpath r w'. unfold Matrix_save.
  assert (Hother : ∀ q, ¬ draw_path (save_path (self w)) q →
    (∀ name, name ∈ summary_names → q ≠ os_path_join (save_path (self w)) name) →
    path ≠ q).
  { intros q Hd Hs <-. destruct Hpath as [?|(name & ? & ->)]; [done|by eapply Hs]. }
  destruct (fs w !! path) as [[|content]|] eqn:Hl; intros ?; simplify_eq.
  - reflexivity.
  - split; [done|]. split; [done|]. split; [done|]. split; [done|]. split; cbn [fs self rng].
    + intros q. cbn [fs]. destruct (decide (q = path)) as [->|Hq].
      * right. rewrite lookup_insert_eq, Hl. split; [by eexists|done].
      * left. by rewrite lookup_insert_ne.
    + intros q Hd Hs. cbn [fs]. apply lookup_insert_ne. by apply Hother.
  - split; [done|]. split; [done|]. split; [done|]. split; [done|]. split; cbn [fs self rng].
    + intros q. cbn [fs]. destruct (decide (q = path)) as [->|Hq].
      * right. rewrite lookup_insert_eq, Hl. split; [by eexists|done].
      * left. by rewrite lookup_insert_ne.
    + intros q Hd Hs. cbn [fs]. apply lookup_insert_ne. by apply Hother.
Qed.

Lemma run_stage_run_frame c (step : nat) w : ends_in run_frame (run_stage c step) w.
Proof.
  intros r w'. rewrite run_stage_eq. revert r w'.
  apply ends_in_bind; [apply _| |].
  { apply ends_in_same; [apply _|]. apply cached_frame. }
  intros hit w1 Hc. apply cached_frame in Hc as ->. destruct hit.
  { apply ends_in_same; [apply _|]. apply Matrix_load_frame. }
  apply ends_in_bind; [apply _| |].
  { intros r w1 Hc. apply stage_compute_frame in Hc as [??].
    by apply run_frame_same_fs. }
  intros x w1 Hc. apply stage_compute_frame in Hc as [Hs _].
  apply ends_in_bind; [apply _| |].
  { apply Matrix_save_run_frame. left. rewrite Hs.
    exists (stage_name c), step. split; [apply stage_name_in|done]. }
  intros _ w2 _. apply ends_in_same; [apply _|]. apply ret_same.
Qed.

Lemma draw_run_frame (number : nat) (method : string) (step : nat) st w :
  ends_in run_frame (draw number method step st) w.
Proof.
  unfold draw. apply ends_in_bind; [apply _| |].
  { apply (run_stage_run_frame (RawStage method)). }
  intros rawm w1 _. apply ends_in_bind; [apply _| |].
  { apply (run_stage_run_frame (UnfoldStage rawm)). }
  intros unf w2 _. apply ends_in_bind; [apply _| |].
  { apply (run_stage_run_frame (FirstgenStage unf)). }
  intros fg w3 _. apply ends_in_bind; [apply _| |].
  { apply ends_in_same; [apply _|]. apply lift_same. }
  intros re w4 _. apply ends_in_bind; [apply _| |].
  { apply ends_in_same; [apply _|]. apply lift_same. }
  intros ue w5 _. apply ends_in_bind; [apply _| |].
  { intros r w' Hs. unfold set_self in Hs. simplify_eq.
    repeat split; try done. intros q. by left. }
  intros _ w6 _. apply ends_in_bind; [apply _| |].
  { apply ends_in_same; [apply _|]. apply lift_same. }
  intros fe w7 _. apply ends_in_same; [apply _|]. apply ret_same.
Qed.

Lemma save_run_frame (x : Matrix V) (name : string) w :
  name ∈ summary_names → ends_in run_frame (save x name) w.
Proof.
  intros Hn r w'. rewrite save_eq. apply Matrix_save_run_frame.
  right. by exists name.
Qed.

Lemma summarise_run_frame st w : ends_in run_frame (summarise st) w.
Proof.
  unfold summarise. intros r w'. rewrite bind_get_self. revert r w'.
  apply ends_in_bind; [apply _|apply save_run_frame, summary_names_raw|].
  intros _ w1 _. apply ends_in_bind;
    [apply _|apply save_run_frame, summary_names_unfolded|].
  intros _ w2 _. apply ends_in_bind; [apply _| |].
  { apply ends_in_same; [apply _|]. apply get_attr_same. }
  intros fg w3 _. apply ends_in_bind;
    [apply _|apply save_run_frame, summary_names_first|].
  intros _ w4 _ r w' Hs. unfold set_self in Hs. simplify_eq.
  repeat split; try done. intros q. by left.
Qed.

(** X8: whatever its outcome, a call of [generate] keeps the reference, the
    save folder and the collaborators and leaves [regenerate] as it was
    given; no file is removed and no directory replaced (every path is
    what it was or holds a saved matrix); and nothing changes at a path
    that is neither the path of a file of a draw nor that of a summary. *)
Theorem generate_only_adds_artifacts (number : nat) (method : string) (regen : bool)
    w r w' :
  generate number method regen w = (r, w') →
  raw (self w') = raw (self w)
  ∧ save_path (self w') = save_path (self w)
  ∧ unfolder (self w') = unfolder (self w)
  ∧ first_generation_method (self w') = first_generation_method (self w)
  ∧ regenerate (self w') = Some regen
  ∧ (∀ q, is_file (fs w) q = true → is_file (fs w') q = true)
  ∧ (∀ q, fs w !! q = Some Dir → fs w' !! q = Some Dir)
  ∧ (∀ q, ¬ draw_path (save_path (self w)) q →
          (∀ name, name ∈ summary_names →
             q ≠ os_path_join (save_path (self w)) name) →
          fs w' !! q = fs w !! q).
Proof.
  rewrite generate_eq. intros Hg.
  assert (Hframe : run_frame (started regen w) w').
  { revert Hg. apply ends_in_bind; [apply _| |].
    - apply for_each_ends_in; [apply _|]. intros. apply draw_run_frame.
    - intros st wl _. apply summarise_run_frame. }
  assert (Hregen : regenerate (self w') = Some regen).
  { apply bind_inv in Hg as [(st & wl & Hloop & Hsum)|(e & Hloop & _)].
    - apply loop_keeps in Hloop as (_ & _ & Hr & _).
      apply summarise_ends_in in Hsum as (_ & _ & _ & Hr' & _). congruence.
    - by apply loop_keeps in Hloop as (_ & _ & Hr & _). }
  destruct Hframe as (? & ? & ? & ? & Hadds & Hout). simpl in *.
  repeat split; try done.
  - intros q. unfold is_file. destruct (Hadds q) as [->|[[m ->] _]]; done.
  - intros q Hq. destruct (Hadds q) as [->|[_ Hd]]; done.
Qed.
End RunFrame.

(** * The stacks *)

Section StackFacts.
Context {V : Type} `{Numeric V}.
Implicit Types (e : array3 V) (a : array2 V) (l : list V).

(** One row and all rows of a flat array, read cell by cell. *)
Lemma read_row l (o s c : nat) :
  o + s + c ≤ length l →
  (j ← seq s c; [default zero (l !! (o + j))]) = take c (drop (o + s) l).
Proof.
  revert s. induction c as [|c IH]; intros s Hlen; [done|].
  simpl seq. rewrite bind_cons, IH by lia.
  destruct (lookup_lt_is_Some_2 l (o + s)) as [x Hx]; [lia|].
  rewrite Hx, (drop_S _ _ _ Hx). simpl. by rewrite Nat.add_succ_r.
Qed.

Lemma read_rows l (o r c : nat) :
  (o + r) * c ≤ length l →
  (i ← seq o r; j ← seq 0 c; [default zero (l !! (i * c + j))])
  = take (r * c) (drop (o * c) l).
Proof.
  revert o. induction r as [|r IH]; intros o Hlen; [done|].
  simpl seq. rewrite bind_cons, IH by lia.
  rewrite read_row by nia. rewrite Nat.add_0_r.
  replace (S o * c) with (o * c + c) by lia.
  by rewrite <-drop_drop, take_take_drop.
Qed.

Lemma length_grid (f : nat → nat → V) (o s r c : nat) :
  length (i ← seq o r; j ← seq s c; [f i j]) = r * c.
Proof.
  assert (Hrow : ∀ (g : nat → V) s', length (j ← seq s' c; [g j]) = c).
  { intros g. induction c as [|c' IH]; intros s'; [done|].
    simpl seq. rewrite bind_cons. simpl. by rewrite IH. }
  revert o. induction r as [|r IH]; intros o; [done|].
  simpl seq. rewrite bind_cons, length_app, IH, (Hrow _ s). lia.
Qed.

Lemma length_broadcast_cells (r c : nat) a : length (broadcast_cells r c a) = r * c.
Proof. apply length_grid. Qed.

(** An array assigned to a slot of its own shape fills the slot with its
    cells. *)
Lemma broadcast_cells_same_shape a :
  wf2 a → broadcast_cells (rows a) (cols a) a = cells a.
Proof.
  unfold wf2, broadcast_cells. intros Hwf.
  trans (i ← seq 0 (rows a); j ← seq 0 (cols a);
         [default zero (cells a !! (i * cols a + j))]).
  - apply Forall_bind_ext, Forall_forall. intros i Hi%elem_of_seq.
    apply Forall_bind_ext, Forall_forall. intros j Hj%elem_of_seq.
    repeat case_bool_decide; repeat f_equal; lia.
  - rewrite read_rows by lia. simpl. rewrite drop_0. apply take_ge. lia.
Qed.

Lemma np_zeros3_wf (number r c : nat) : wf3 (np_zeros3 number r c).
Proof. unfold wf3; simpl. apply length_replicate. Qed.

Lemma getitem_step_lookup e (k i : nat) :
  i < rows3 e * cols3 e →
  getitem_step e k !! i = cells3 e !! (k * (rows3 e * cols3 e) + i).
Proof. intros Hi. unfold getitem_step. by rewrite lookup_take_lt, lookup_drop. Qed.

(** The assignment [e[step, :, :] = a]: the stack keeps its shape and its
    size, the slot [step] holds the broadcast cells of [a], every other
    slot is what it was. *)
Lemma setitem_step_ok e (step : nat) a e' :
  wf3 e → setitem_step e step a = Ok e' →
  shape3 e' = shape3 e ∧ wf3 e'
  ∧ getitem_step e' step = broadcast_cells (rows3 e) (cols3 e) a
  ∧ ∀ k, k ≠ step → getitem_step e' k = getitem_step e k.
Proof.
  unfold wf3, setitem_step. intros Hwf.
  case_bool_decide as Hstep; [|done].
  destruct (broadcastable _ _ a); [|done]. intros [= <-].
  set (sz := rows3 e * cols3 e) in *.
  assert (Hle : S step * sz ≤ length (cells3 e)) by (rewrite Hwf; nia).
  assert (Hpre : length (take (step * sz) (cells3 e)) = step * sz)
    by (rewrite length_take; lia).
  pose proof (length_broadcast_cells (rows3 e) (cols3 e) a) as Hbc. fold sz in Hbc.
  split; [done|]. split; [|split].
  - simpl. rewrite !length_app, Hpre, Hbc, length_drop. fold sz. nia.
  - unfold getitem_step; simpl. fold sz.
    rewrite drop_app_length' by done. by rewrite take_app_length'.
  - intros k Hk. unfold getitem_step; simpl. fold sz.
    apply list_eq. intros i. destruct (decide (i < sz)) as [Hi|Hi].
    2: { by rewrite !lookup_take_ge by lia. }
    rewrite !lookup_take_lt, !lookup_drop by done.
    destruct (decide (k < step)).
    + rewrite lookup_app_l by (rewrite Hpre; nia).
      apply lookup_take_lt. nia.
    + rewrite lookup_app_r by (rewrite Hpre; nia).
      rewrite lookup_app_r by (rewrite Hpre, Hbc; nia).
      rewrite lookup_drop, Hpre, Hbc. f_equal. nia.
Qed.
End StackFacts.

Section StacksAndFiles.
Context {V Rng : Type} `{Numeric V} `{RandomState V Rng}.
Implicit Types (w : world V Rng) (m : Matrix V) (st : stacks (V:=V))
  (c : stage_call (V:=V)).

(** A stage leaves the files of the other stages and of the other draws
    as they are. *)
Lemma stage_keeps_other_file c (step : nat) w r w' (s : string) (j : nat) :
  run_stage c step w = (r, w') → s ∈ stage_names →
  s ≠ stage_name c ∨ j ≠ step →
  fs w' !! os_path_join (save_path (self w)) (step_file s j)
  = fs w !! os_path_join (save_path (self w)) (step_file s j).
Proof.
  intros Hrun Hs Hne. destruct (run_stage_frame _ _ _ _ _ Hrun) as [_ Hfs].
  apply Hfs. unfold stage_path. intros Heq.
  apply os_path_join_inj in Heq;
    [|by apply step_file_relative|apply step_file_relative, stage_name_in].
  apply step_file_inj in Heq as [-> ->]; [|done|apply stage_name_in].
  by destruct Hne.
Qed.

(** The files and the stacks after a draw that returned. *)
Lemma draw_files (number : nat) (method : string) (k : nat) st0 wk st w :
  draw number method k st0 wk = (Ok st, w) →
  let file s j := os_path_join (save_path (self wk)) (step_file s j) in
  save_path (self w) = save_path (self wk)
  ∧ (∀ s j, s ∈ stage_names → j ≠ k → fs w !! file s j = fs wk !! file s j)
  ∧ ∃ rawm unf fg,
      fs w !! file "raw" k = Some (File (Some rawm))
      ∧ fs w !! file "unfolded" k = Some (File (Some unf))
      ∧ fs w !! file "firstgen" k = Some (File (Some fg))
      ∧ firstgen (self w) = Some fg
      ∧ setitem_step (raw_ensemble st0) k (values rawm) = Ok (raw_ensemble st)
      ∧ setitem_step (unfolded_ensemble st0) k (values unf)
        = Ok (unfolded_ensemble st)
      ∧ setitem_step
          (np_zeros3 number (rows (values fg)) (cols (values fg))) k (values fg)
        = Ok (firstgen_stack st).
Proof.
  intros Hd file.
  apply draw_ok in Hd
    as (rawm & wa & unf & wb & fg & wc & Hr & Hu & Hf & -> & Hre & Hue & Hfe).
  destruct (run_stage_frame (RawStage method) _ _ _ _ Hr) as [Hsa _].
  destruct (run_stage_frame (UnfoldStage rawm) _ _ _ _ Hu) as [Hsb _].
  destruct (run_stage_frame (FirstgenStage unf) _ _ _ _ Hf) as [Hsc _].
  pose proof (run_stage_saved (RawStage method) _ _ _ _ Hr) as Hfa.
  pose proof (run_stage_saved (UnfoldStage rawm) _ _ _ _ Hu) as Hfb.
  pose proof (run_stage_saved (FirstgenStage unf) _ _ _ _ Hf) as Hfc.
  unfold stage_path in Hfa, Hfb, Hfc. simpl in Hfa, Hfb, Hfc.
  rewrite Hsa in Hfb. rewrite Hsb, Hsa in Hfc.
  assert (Hkeep : ∀ s j, s ∈ stage_names →
    (s ≠ "raw" ∨ j ≠ k) → (s ≠ "unfolded" ∨ j ≠ k) → (s ≠ "firstgen" ∨ j ≠ k) →
    fs wc !! file s j = fs wk !! file s j).
  { intros s j Hs H1 H2 H3. unfold file.
    rewrite <-(stage_keeps_other_file (RawStage method) _ _ _ _ s j Hr) by done.
    rewrite <-Hsa.
    rewrite <-(stage_keeps_other_file (UnfoldStage rawm) _ _ _ _ s j Hu) by done.
    rewrite <-Hsb.
    by rewrite <-(stage_keeps_other_file (FirstgenStage unf) _ _ _ _ s j Hf). }
  simpl. split; [congruence|]. split.
  { intros s j Hs Hj. apply Hkeep; auto. }
  exists rawm, unf, fg. repeat split; try done.
  - unfold file. rewrite <-Hfa, <-Hsa.
    rewrite <-(stage_keeps_other_file (UnfoldStage rawm) _ _ _ _ "raw" k Hu)
      by (apply stage_names_raw || (left; done)).
    rewrite <-Hsb.
    by rewrite <-(stage_keeps_other_file (FirstgenStage unf) _ _ _ _ "raw" k Hf)
      by (apply stage_names_raw || (left; done)).
  - unfold file. rewrite <-Hfb, <-Hsa, <-Hsb.
    by rewrite <-(stage_keeps_other_file (FirstgenStage unf) _ _ _ _ "unfolded" k Hf)
      by (apply stage_names_unfolded || (left; done)).
Qed.
End StacksAndFiles.

Section StackTheorems.
Context {V Rng : Type} `{Numeric V} `{RandomState V Rng}.
Implicit Types (w : world V Rng) (m : Matrix V) (st : stacks (V:=V)).

Lemma slot_holds_cells (e : array3 V) (k : nat) m :
  slot_holds e k m → wf2 (values m) → Matrix_shape m = [rows3 e; cols3 e] →
  getitem_step e k = cells (values m).
Proof.
  unfold slot_holds. intros -> Hwf [= <- <-]. by apply broadcast_cells_same_shape.
Qed.

Lemma slot_holds_setitem (e e' : array3 V) (k : nat) m :
  wf3 e → setitem_step e k (values m) = Ok e' →
  shape3 e' = shape3 e ∧ wf3 e' ∧ slot_holds e' k m
  ∧ ∀ j m', j ≠ k → slot_holds e j m' → slot_holds e' j m'.
Proof.
  intros Hwf Hset.
  destruct (setitem_step_ok _ _ _ _ Hwf Hset) as (Hshape & Hwf' & Hk & Hother).
  injection Hshape as Hd Hr Hc.
  unfold slot_holds. rewrite Hr, Hc. repeat split; try done.
  - unfold shape3. congruence.
  - intros j m' Hj Hm'. by rewrite Hother.
Qed.

(** After [k] draws that returned, the raw and the unfolded stack have the
    shape [(number, *self.raw.shape)], and their slots below [k] hold the
    matrices that the files of those draws hold. *)
Lemma loop_stacks (number : nat) (method : string) w0 (k : nat) st w :
  k ≤ number →
  for_each (seq 0 k) (draw number method) (allocate number (self w0)) w0
  = (Ok st, w) →
  save_path (self w) = save_path (self w0)
  ∧ wf3 (raw_ensemble st)
  ∧ shape3 (raw_ensemble st) = number :: Matrix_shape (raw (self w0))
  ∧ wf3 (unfolded_ensemble st)
  ∧ shape3 (unfolded_ensemble st) = number :: Matrix_shape (raw (self w0))
  ∧ ∀ j, j < k →
      slot_is_file (raw_ensemble st) "raw" j w
      ∧ slot_is_file (unfolded_ensemble st) "unfolded" j w.
Proof.
  revert st w. induction k as [|k IH]; intros st w Hk.
  { simpl. unfold ret. intros ?; simplify_eq. simpl.
    repeat split; try apply np_zeros3_wf; lia. }
  rewrite seq_S, for_each_app. intros Hrun.
  apply bind_inv_ok in Hrun as (st0 & wk & Hpre & Hlast). simpl in Hlast.
  apply bind_inv_ok in Hlast as (st' & w1 & Hd & Hret).
  unfold ret in Hret. simplify_eq.
  destruct (IH st0 wk ltac:(lia) Hpre) as (Hsp & Hwr & Hsr & Hwu & Hsu & Hslots).
  destruct (draw_files _ _ _ _ _ _ _ Hd)
    as (Hsp' & Hkeep & rawm & unf & fg & Hfr & Hfu & _ & _ & Hre & Hue & _).
  destruct (slot_holds_setitem _ _ _ _ Hwr Hre) as (Hsr' & Hwr' & Hkr & Hor).
  destruct (slot_holds_setitem _ _ _ _ Hwu Hue) as (Hsu' & Hwu' & Hku & Hou).
  split; [congruence|]. split; [done|]. split; [congruence|].
  split; [done|]. split; [congruence|].
  intros j Hj. unfold slot_is_file. rewrite Hsp'.
  destruct (decide (j = k)) as [->|Hjk].
  - split; [by exists rawm|by exists unf].
  - destruct (Hslots j ltac:(lia)) as [(mr & Hmr & Hsr0) (mu & Hmu & Hsu0)].
    split.
    + exists mr. split; [|by apply Hor].
      by rewrite (Hkeep "raw" j stage_names_raw Hjk).
    + exists mu. split; [|by apply Hou].
      by rewrite (Hkeep "unfolded" j stage_names_unfolded Hjk).
Qed.

Lemma summary_keeps_step_file (folder s : string) (j : nat)
    (x y z : node V) (files : gmap string (node V)) :
  s ∈ stage_names →
  <[os_path_join folder "first_std.m" := z]>
    (<[os_path_join folder "unfolded_std.m" := y]>
       (<[os_path_join folder "raw.m" := x]> files))
  !! os_path_join folder (step_file s j)
  = files !! os_path_join folder (step_file s j).
Proof.
  intros Hs.
  rewrite !lookup_insert_ne; [done|..]; intros Heq; symmetry in Heq;
    revert Heq; apply step_path_not_summary; try done.
  - apply summary_names_raw.
  - apply summary_names_unfolded.
  - apply summary_names_first.
Qed.


(** X10: after a [generate] of at least one draw that returned, the first
    generation stack has the shape of the final draw's first-generation
    matrix, which is [self.firstgen] and the matrix the file of the final
    draw holds; the final slot of the stack holds that matrix's values, and
    the first-generation summary has that matrix's shape. *)
Theorem firstgen_stack_holds_final_draw (number : nat) (method : string)
    (regen : bool) w w' :
  0 < number →
  generate number method regen w = (Ok tt, w') →
  ∃ fe fg,
    firstgen_ensemble (self w') = Some fe
    ∧ firstgen (self w') = Some fg
    ∧ fs w' !! os_path_join (save_path (self w)) (step_file "firstgen" (number - 1))
      = Some (File (Some fg))
    ∧ shape3 fe = number :: Matrix_shape fg ∧ wf3 fe
    ∧ slot_holds fe (number - 1) fg
    ∧ (wf2 (values fg) → getitem_step fe (number - 1) = cells (values fg))
    ∧ Matrix_shape <$> std_firstgen (self w') = Some (Matrix_shape fg).
Proof.
  intros Hn. rewrite generate_eq. intros Hg.
  apply bind_inv_ok in Hg as (st & wl & Hloop & Hsum).
  destruct (loop_last _ _ _ _ _ Hn Hloop) as (st0 & wk & Hpre & Hlast).
  pose proof (loop_keeps _ _ _ _ _ _ _ _ Hpre) as (Hsp & _).
  destruct (draw_files _ _ _ _ _ _ _ Hlast)
    as (Hsp' & _ & rawm & unf & fg & _ & _ & Hff & Hattr & _ & _ & Hfe).
  apply summarise_ok in Hsum as (fg' & Hattr' & ->).
  rewrite Hattr in Hattr'. injection Hattr' as <-.
  destruct (slot_holds_setitem _ _ _ _ (np_zeros3_wf _ _ _) Hfe)
    as (Hshape & Hwf & Hslot & _).
  exists (firstgen_stack st), fg. simpl.
  assert (Hsh : shape3 (firstgen_stack st) = number :: Matrix_shape fg) by done.
  repeat split; try done.
  - rewrite <-Hsp, <-Hsp'.
    rewrite summary_keeps_step_file by apply stage_names_firstgen.
    by rewrite Hsp'.
  - intros Hwf2. eapply slot_holds_cells; [done..|].
    by injection Hsh as _ -> ->.
  - unfold Matrix_shape, shape2. simpl. by injection Hsh as _ -> ->.
Qed.
End StackTheorems.

(** ** The summaries, cell by cell *)

Section SummaryCells.
Context {V Rng : Type} `{Numeric V} `{RandomState V Rng}.
Implicit Types (w : world V Rng) (m : Matrix V) (st : stacks (V:=V)).

Lemma np_std_axis0_slots (e : array3 V) : std_over_slots (np_std_axis0 e) e.
Proof.
  unfold std_over_slots, np_std_axis0. simpl. split; [done|]. split.
  - by rewrite length_fmap, length_seq.
  - intros k Hk. rewrite list_lookup_fmap, lookup_seq_lt by done. simpl.
    do 2 f_equal. apply list_fmap_ext. intros _ i _.
    by rewrite getitem_step_lookup.
Qed.

(** The first-generation stack after a loop that returned: as deep as the
    run is long, with as many cells as its shape says and the final draw's
    matrix in its final slot. *)
Lemma loop_firstgen_stack (number : nat) (method : string) w0 st wl fg :
  for_each (seq 0 number) (draw number method) (allocate number (self w0)) w0
  = (Ok st, wl) →
  firstgen (self wl) = Some fg →
  depth (firstgen_stack st) = number
  ∧ wf3 (firstgen_stack st)
  ∧ (0 < number → slot_holds (firstgen_stack st) (number - 1) fg).
Proof.
  intros Hloop Hattr. destruct (decide (number = 0)) as [->|Hn].
  { simpl in Hloop. unfold ret in Hloop. simplify_eq. simpl.
    split; [done|]. split; [apply np_zeros3_wf|]. lia. }
  assert (Hpos : 0 < number) by lia.
  destruct (loop_last _ _ _ _ _ Hpos Hloop) as (st0 & wk & _ & Hlast).
  destruct (draw_files _ _ _ _ _ _ _ Hlast)
    as (_ & _ & rawm & unf & fg' & _ & _ & _ & Hattr' & _ & _ & Hfe).
  rewrite Hattr in Hattr'. injection Hattr' as <-.
  destruct (slot_holds_setitem _ _ _ _ (np_zeros3_wf _ _ _) Hfe)
    as (Hshape & Hwf & Hslot & _).
  injection Hshape as Hd _ _. by repeat split.
Qed.

(** C7: after a run that returns, the three summaries are the standard
    deviations over axis 0 of the three stacks the loop filled, tagged
    [std]: each has the shape of one slot of its stack, and each of its
    cells is the standard deviation of the values that the [number] slots
    of the stack hold at that cell (a stack has [number] slots and as many
    cells as its shape says).  The slot of a draw in the raw and in
    the unfolded stack holds the values of the matrix that the file of
    that draw holds, and the final slot of the first-generation stack
    those of the final draw's first-generation matrix.  The raw and the
    unfolded summary carry the reference's axes and the first-generation
    summary the axes of [self.firstgen], which after at least one draw is
    the final draw's first-generation matrix; they are the attributes
    [std_raw], [std_unfolded] and [std_firstgen], and the files [raw.m],
    [unfolded_std.m] and [first_std.m] of the save folder hold them. *)
Theorem generate_summaries (number : nat) (method : string) (regen : bool) w w' :
  generate number method regen w = (Ok tt, w') →
  ∃ st wl fg,
    draws number method (started regen w) = (Ok st, wl)
    ∧ firstgen (self wl) = Some fg
    ∧ (0 < number → final_firstgen number method (started regen w) fg)
    ∧ let folder := save_path (self w) in
      let sr := mkMatrix (np_std_axis0 (raw_ensemble st))
                  (Eg (raw (self w))) (Ex (raw (self w))) (Some "std") in
      let su := mkMatrix (np_std_axis0 (unfolded_ensemble st))
                  (Eg (raw (self w))) (Ex (raw (self w))) (Some "std") in
      let sf := mkMatrix (np_std_axis0 (firstgen_stack st)) (Eg fg) (Ex fg)
                  (Some "std") in
      std_raw (self w') = Some sr
      ∧ std_unfolded (self w') = Some su
      ∧ std_firstgen (self w') = Some sf
      ∧ firstgen_ensemble (self w') = Some (firstgen_stack st)
      ∧ fs w' !! os_path_join folder "raw.m" = Some (File (Some sr))
      ∧ fs w' !! os_path_join folder "unfolded_std.m" = Some (File (Some su))
      ∧ fs w' !! os_path_join folder "first_std.m" = Some (File (Some sf))
      ∧ std_over_slots (values sr) (raw_ensemble st)
      ∧ std_over_slots (values su) (unfolded_ensemble st)
      ∧ std_over_slots (values sf) (firstgen_stack st)
      ∧ depth (raw_ensemble st) = number ∧ wf3 (raw_ensemble st)
      ∧ depth (unfolded_ensemble st) = number ∧ wf3 (unfolded_ensemble st)
      ∧ depth (firstgen_stack st) = number ∧ wf3 (firstgen_stack st)
      ∧ (∀ i, i < number →
           slot_is_file (raw_ensemble st) "raw" i w'
           ∧ slot_is_file (unfolded_ensemble st) "unfolded" i w')
      ∧ (0 < number → slot_holds (firstgen_stack st) (number - 1) fg).
Proof.
  rewrite generate_eq. intros Hg.
  apply bind_inv_ok in Hg as (st & wl & Hloop & Hsum).
  pose proof (loop_keeps _ _ _ _ _ _ _ _ Hloop) as (Hsp & Hraw & _).
  destruct (loop_stacks _ _ _ number _ _ (Nat.le_refl _) Hloop)
    as (Hsp' & Hwr & Hsr & Hwu & Hsu & Hslots).
  apply summarise_ok in Hsum as (fg & Hattr & ->). rewrite Hsp, Hraw.
  destruct (loop_firstgen_stack _ _ _ _ _ _ Hloop Hattr) as (Hdf & Hwf & Hlastslot).
  exists st, wl, fg. split; [done|]. split; [done|]. split.
  { intros Hn.
    destruct (loop_last _ _ _ _ _ Hn Hloop) as (st0 & wk & Hpre & Hlast).
    apply draw_ok in Hlast
      as (rawm & wa & unf & wb & fg' & wc & Hr & Hu & Hf & -> & _).
    simpl in Hattr. simplify_eq.
    by exists st0, wk, rawm, wa, unf, wb, wc. }
  injection Hsr as Hdr _ _. injection Hsu as Hdu _ _.
  cbn [self fs std_raw std_unfolded std_firstgen firstgen_ensemble set_results values].
  split; [done|]. split; [done|]. split; [done|]. split; [done|]. split.
  { rewrite !lookup_insert_ne
      by (apply summary_paths_differ;
          [apply summary_names_first || apply summary_names_unfolded
          |apply summary_names_raw|done]).
    apply lookup_insert_eq. }
  split.
  { rewrite lookup_insert_ne
      by (apply summary_paths_differ;
          [apply summary_names_first|apply summary_names_unfolded|done]).
    apply lookup_insert_eq. }
  split; [apply lookup_insert_eq|].
  split; [apply np_std_axis0_slots|]. split; [apply np_std_axis0_slots|].
  split; [apply np_std_axis0_slots|].
  do 6 (split; [done|]). split; [|done].
  intros i Hi. unfold slot_is_file. cbn [self fs save_path set_results].
  destruct (Hslots i Hi) as [(mr & Hmr & Hhr) (mu & Hmu & Hhu)].
  rewrite Hsp' in Hmr, Hmu. simpl in Hmr, Hmu. rewrite <-Hsp.
  split.
  - exists mr. split; [|done].
    rewrite summary_keeps_step_file by apply stage_names_raw. by rewrite Hsp.
  - exists mu. split; [|done].
    rewrite summary_keeps_step_file by apply stage_names_unfolded. by rewrite Hsp.
Qed.
End SummaryCells.

Lemma generate_summaries_witness :
  let w := IntModel.cached_world in
  let w' := (generate 2 "poisson" false w).2 in
  ∃ st wl fg,
    draws 2 "poisson" (started false w) = (Ok st, wl)
    ∧ firstgen (self wl) = Some fg
    ∧ (0 < 2 → final_firstgen 2 "poisson" (started false w) fg)
    ∧ let folder := save_path (self w) in
      let sr := mkMatrix (np_std_axis0 (raw_ensemble st))
                  (Eg (raw (self w))) (Ex (raw (self w))) (Some "std") in
      let su := mkMatrix (np_std_axis0 (unfolded_ensemble st))
                  (Eg (raw (self w))) (Ex (raw (self w))) (Some "std") in
      let sf := mkMatrix (np_std_axis0 (firstgen_stack st)) (Eg fg) (Ex fg)
                  (Some "std") in
      std_raw (self w') = Some sr
      ∧ std_unfolded (self w') = Some su
      ∧ std_firstgen (self w') = Some sf
      ∧ firstgen_ensemble (self w') = Some (firstgen_stack st)
      ∧ fs w' !! os_path_join folder "raw.m" = Some (File (Some sr))
      ∧ fs w' !! os_path_join folder "unfolded_std.m" = Some (File (Some su))
      ∧ fs w' !! os_path_join folder "first_std.m" = Some (File (Some sf))
      ∧ std_over_slots (values sr) (raw_ensemble st)
      ∧ std_over_slots (values su) (unfolded_ensemble st)
      ∧ std_over_slots (values sf) (firstgen_stack st)
      ∧ depth (raw_ensemble st) = 2 ∧ wf3 (raw_ensemble st)
      ∧ depth (unfolded_ensemble st) = 2 ∧ wf3 (unfolded_ensemble st)
      ∧ depth (firstgen_stack st) = 2 ∧ wf3 (firstgen_stack st)
      ∧ (∀ i, i < 2 →
           slot_is_file (raw_ensemble st) "raw" i w'
           ∧ slot_is_file (unfolded_ensemble st) "unfolded" i w')
      ∧ (0 < 2 → slot_holds (firstgen_stack st) (2 - 1) fg).
Proof.
  assert (Hrun : generate 2 "poisson" false IntModel.cached_world
                 = (Ok tt, (generate 2 "poisson" false IntModel.cached_world).2))
    by (by vm_compute).
  exact (generate_summaries 2 "poisson" false IntModel.cached_world _ Hrun).
Defined.

(** The summaries of the two cached draws: the raw one is the deviation
    of 9 and 11, the unfolded one that of 8 and 10, and the
    first-generation one that of 0 and 7. *)
Example two_draws_summaries :
  let w' := (generate 2 "poisson" false IntModel.cached_world).2 in
  values <$> std_raw (self w') = Some (Array2 1 1 [std1 [9; 11]%Z])
  ∧ values <$> std_unfolded (self w') = Some (Array2 1 1 [std1 [8; 10]%Z])
  ∧ values <$> std_firstgen (self w') = Some (Array2 1 1 [std1 [0; 7]%Z]).
Proof. by vm_compute. Qed.

Section Resumption.
Context {V Rng : Type} `{Numeric V} `{RandomState V Rng}.
Implicit Types (w : world V Rng) (m : Matrix V) (st : stacks (V:=V)).

Lemma loop_files (number : nat) (method : string) w0 (k : nat) st wk :
  for_each (seq 0 k) (draw number method) (allocate number (self w0)) w0
  = (Ok st, wk) →
  save_path (self wk) = save_path (self w0)
  ∧ ∀ stage j, stage ∈ stage_names → j < k →
      is_file (fs wk) (os_path_join (save_path (self w0)) (step_file stage j)) = true.
Proof.
  revert st wk. induction k as [|k IH]; intros st wk.
  { simpl. unfold ret. intros ?; simplify_eq. split; [done|]. lia. }
  rewrite seq_S, for_each_app. intros Hrun.
  apply bind_inv_ok in Hrun as (st0 & w1 & Hpre & Hlast). simpl in Hlast.
  apply bind_inv_ok in Hlast as (st' & w2 & Hd & Hret).
  unfold ret in Hret. simplify_eq.
  destruct (IH _ _ Hpre) as (Hsp & Hfiles).
  destruct (draw_files _ _ _ _ _ _ _ Hd)
    as (Hsp' & Hkeep & rawm & unf & fg & Hfr & Hfu & Hff & _).
  rewrite Hsp in Hkeep, Hfr, Hfu, Hff.
  split; [congruence|]. intros stage j Hs Hj.
  destruct (decide (j = k)) as [->|Hjk].
  - unfold stage_names in Hs.
    repeat (apply elem_of_cons in Hs as [->|Hs]); [..|by apply elem_of_nil in Hs];
      by eapply is_file_lookup.
  - unfold is_file. rewrite Hkeep by done. apply Hfiles; [done|lia].
Qed.

(** X11: every draw that completed during a call of [generate] has its three
    files in the world the call leaves, whether the call returned or
    raised later; after a call that returned, every draw of the run has. *)
Theorem completed_draws_stay_cached (number : nat) (method : string) (regen : bool)
    w (k : nat) st wk r w' :
  k ≤ number →
  for_each (seq 0 k) (draw number method)
    (allocate number (self (started regen w))) (started regen w) = (Ok st, wk) →
  generate number method regen w = (r, w') →
  (∀ stage j, stage ∈ stage_names → j < k →
     is_file (fs w') (os_path_join (save_path (self w')) (step_file stage j)) = true)
  ∧ (r = Ok tt → fully_cached number w').
Proof.
  intros Hk Hpre. rewrite generate_eq. intros Hg.
  assert (Hmono : ∀ k' st' wk',
    k' ≤ number →
    for_each (seq 0 k') (draw number method)
      (allocate number (self (started regen w))) (started regen w) = (Ok st', wk') →
    ∀ stage j, stage ∈ stage_names → j < k' →
      is_file (fs w') (os_path_join (save_path (self w')) (step_file stage j)) = true).
  { intros k' st' wk' Hk' Hpre' stage j Hs Hj.
    destruct (loop_files _ _ _ _ _ _ Hpre') as (Hsp & Hfiles).
    assert (Hframe : run_frame wk' w').
    { assert (Hseq : seq 0 number = seq 0 k' ++ seq (0 + k') (number - k'))
        by (rewrite <-seq_app; f_equal; lia).
      revert Hg. unfold bind at 1.
      rewrite Hseq, for_each_app, (bind_ok _ _ _ _ _ Hpre').
      destruct (for_each (seq (0 + k') (number - k')) (draw number method) st' wk')
        as [[st1|e] wl] eqn:Hrest; intros Hg.
      - etrans; [|by eapply summarise_run_frame].
        eapply (for_each_ends_in run_frame); [|done]. intros. apply draw_run_frame.
      - simplify_eq.
        eapply (for_each_ends_in run_frame); [|done]. intros. apply draw_run_frame. }
    destruct Hframe as (_ & Hsp1 & _ & _ & Hadds & _).
    specialize (Hfiles stage j Hs Hj). rewrite Hsp1, Hsp.
    revert Hfiles. unfold is_file.
    destruct (Hadds (os_path_join (save_path (self (started regen w)))
                       (step_file stage j))) as [->|[[m ->] _]]; done. }
  split; [by eapply Hmono|].
  intros ->. apply bind_inv_ok in Hg as (stl & wl & Hloop & _).
  intros stage j Hs Hj. by eapply (Hmono number).
Qed.
End Resumption.

(** * The further properties on the integer instance *)

Lemma stage_round_trip_witness :
  let w := IntSamples.resuming in
  let out := run_stage (UnfoldStage (IntModel.one 3)) 0 w in
  out.1 = Ok (IntModel.one 3)
  ∧ fs out.2 !! "out/unfolded_0.m" = Some (File (Some (IntModel.one 3)))
  ∧ run_stage (UnfoldStage (IntModel.one 4)) 0 out.2 = (Ok (IntModel.one 3), out.2).
Proof.
  intros w out.
  assert (Hrun : run_stage (UnfoldStage (IntModel.one 3)) 0 w
                 = (Ok (IntModel.one 3), out.2)) by (by vm_compute).
  destruct (stage_round_trip (UnfoldStage (IntModel.one 3))
              (UnfoldStage (IntModel.one 4)) 0 w (IntModel.one 3) out.2 Hrun)
    as [Hsaved Hagain].
  split; [by vm_compute|]. split; [exact Hsaved|].
  exact (Hagain eq_refl eq_refl).
Defined.

Lemma stage_touches_only_its_file_witness :
  let w := IntSamples.resuming in
  let out := run_stage (UnfoldStage (IntModel.one 3)) 0 w in
  self out.2 = self w
  ∧ (∀ q, q ≠ "out/unfolded_0.m" → fs out.2 !! q = fs w !! q)
  ∧ rng out.2 = rng w.
Proof.
  intros w out.
  destruct (stage_touches_only_its_file (UnfoldStage (IntModel.one 3)) 0 w
              out.1 out.2 (surjective_pairing _)) as (Hself & Hfs & Hrng & _).
  split; [exact Hself|]. split; [exact Hfs|]. apply Hrng. discriminate.
Defined.

Lemma stage_before_generate_witness :
  is_file IntModel.two_draws "out/raw_0.m" = true
  ∧ run_stage (RawStage "poisson") 0 IntModel.cached_world
    = (Raise (AttributeError "'Ensemble' object has no attribute 'regenerate'"),
       IntModel.cached_world).
Proof.
  split; [by vm_compute|].
  apply (proj1 (stage_before_generate (RawStage "poisson") 0 (IntModel.one 9)
                  "out" IntModel.two_draws 1%Z)).
  by vm_compute.
Defined.

Lemma missing_collaborator_aborts_witness :
  (∃ rawm wa,
     generate_raw 0 "poisson" (started true IntModel.fresh) = (Ok rawm, wa)
     ∧ generate 1 "poisson" true IntModel.fresh
       = (Raise (AttributeError "'NoneType' object has no attribute 'unfold'"), wa)
     ∧ fs wa !! "out/raw_0.m" = Some (File (Some rawm)))
  ∧ (∃ rawm wa unf wb,
       generate_raw 0 "poisson" (started true IntSamples.no_first_generation)
       = (Ok rawm, wa)
       ∧ unfold 0 rawm wa = (Ok unf, wb)
       ∧ generate 1 "poisson" true IntSamples.no_first_generation
         = (Raise (TypeError "'NoneType' object is not callable"), wb)
       ∧ fs wb !! "out/unfolded_0.m" = Some (File (Some unf))).
Proof.
  split.
  - assert (Hraw : ∃ rawm wa,
      generate_raw 0 "poisson" (started true IntModel.fresh) = (Ok rawm, wa))
      by (eexists _, _; by vm_compute).
    destruct Hraw as (rawm & wa & Hraw). exists rawm, wa. split; [exact Hraw|].
    exact (proj1 (missing_collaborator_aborts 1 "poisson" true IntModel.fresh 0
                    (allocate 1 (self (started true IntModel.fresh)))
                    (started true IntModel.fresh) rawm wa
                    (Nat.lt_0_succ 0) eq_refl Hraw)
             eq_refl (or_introl eq_refl)).
  - assert (Hraw : ∃ rawm wa unf wb,
      generate_raw 0 "poisson" (started true IntSamples.no_first_generation)
      = (Ok rawm, wa) ∧ unfold 0 rawm wa = (Ok unf, wb)).
    { eexists _, _, _, _. split; by vm_compute. }
    destruct Hraw as (rawm & wa & unf & wb & Hraw & Hunf).
    exists rawm, wa, unf, wb. split; [exact Hraw|]. split; [exact Hunf|].
    exact (proj2 (missing_collaborator_aborts 1 "poisson" true
                    IntSamples.no_first_generation 0
                    (allocate 1 (self (started true IntSamples.no_first_generation)))
                    (started true IntSamples.no_first_generation) rawm wa
                    (Nat.lt_0_succ 0) eq_refl Hraw)
             eq_refl unf wb Hunf (or_introl eq_refl)).
Defined.

Lemma artifact_paths_distinct_witness :
  "out/raw_3.m" ≠ "out/raw.m" ∧ "out/unfolded_3.m" ≠ "out/unfolded_std.m"
  ∧ "out/firstgen_3.m" ≠ "out/first_std.m".
Proof.
  destruct (artifact_paths_distinct "out") as (_ & Hsummary & _).
  split; [|split].
  - exact (Hsummary "raw" 3 "raw.m" stage_names_raw summary_names_raw).
  - exact (Hsummary "unfolded" 3 "unfolded_std.m"
             stage_names_unfolded summary_names_unfolded).
  - exact (Hsummary "firstgen" 3 "first_std.m"
             stage_names_firstgen summary_names_first).
Defined.

Lemma cached_run_ignores_method_witness :
  generate 2 "bogus" false IntModel.cached_world
  = generate 2 "poisson" false IntModel.cached_world.
Proof.
  exact (cached_run_ignores_method 2 "bogus" "poisson" IntModel.cached_world
           two_draws_fully_cached).
Defined.

Lemma generate_without_draws_witness :
  let w := IntModel.fresh in
  let empty := np_zeros3 0 (rows (values (raw (self w)))) (cols (values (raw (self w)))) in
  let summary := mkMatrix (np_std_axis0 empty) (Eg (raw (self w))) (Ex (raw (self w)))
                   (Some "std") in
  generate 0 "poisson" false w
  = (Raise (AttributeError "'Ensemble' object has no attribute 'firstgen'"),
     mkWorld (set_regenerate false (self w))
       (<[os_path_join (save_path (self w)) "unfolded_std.m" := File (Some summary)]>
          (<[os_path_join (save_path (self w)) "raw.m" := File (Some summary)]> (fs w)))
       (rng w)).
Proof.
  assert (Hraw : fs IntModel.fresh
                 !! os_path_join (save_path (self IntModel.fresh)) "raw.m"
                 ≠ Some Dir) by (by vm_compute).
  assert (Hunf : fs IntModel.fresh
                 !! os_path_join (save_path (self IntModel.fresh)) "unfolded_std.m"
                 ≠ Some Dir) by (by vm_compute).
  exact (generate_without_draws "poisson" false IntModel.fresh eq_refl Hraw Hunf).
Defined.

Lemma generate_only_adds_artifacts_witness :
  let w := IntModel.cached_world in
  let w' := (generate 2 "poisson" false w).2 in
  raw (self w') = raw (self w)
  ∧ save_path (self w') = save_path (self w)
  ∧ unfolder (self w') = unfolder (self w)
  ∧ first_generation_method (self w') = first_generation_method (self w)
  ∧ regenerate (self w') = Some false
  ∧ (∀ q, is_file (fs w) q = true → is_file (fs w') q = true)
  ∧ (∀ q, fs w !! q = Some Dir → fs w' !! q = Some Dir)
  ∧ (∀ q, ¬ draw_path (save_path (self w)) q →
          (∀ name, name ∈ summary_names →
             q ≠ os_path_join (save_path (self w)) name) →
          fs w' !! q = fs w !! q).
Proof.
  exact (generate_only_adds_artifacts 2 "poisson" false IntModel.cached_world _ _
           (surjective_pairing _)).
Defined.


Lemma firstgen_stack_holds_final_draw_witness :
  let w := IntModel.cached_world in
  let w' := (generate 2 "poisson" false w).2 in
  ∃ fe fg,
    firstgen_ensemble (self w') = Some fe
    ∧ firstgen (self w') = Some fg
    ∧ fs w' !! os_path_join (save_path (self w)) (step_file "firstgen" (2 - 1))
      = Some (File (Some fg))
    ∧ shape3 fe = 2 :: Matrix_shape fg ∧ wf3 fe
    ∧ slot_holds fe (2 - 1) fg
    ∧ (wf2 (values fg) → getitem_step fe (2 - 1) = cells (values fg))
    ∧ Matrix_shape <$> std_firstgen (self w') = Some (Matrix_shape fg).
Proof.
  assert (Hrun : generate 2 "poisson" false IntModel.cached_world
                 = (Ok tt, (generate 2 "poisson" false IntModel.cached_world).2))
    by (by vm_compute).
  exact (firstgen_stack_holds_final_draw 2 "poisson" false IntModel.cached_world _
           (Nat.lt_0_succ 1) Hrun).
Defined.

Lemma completed_draws_stay_cached_witness :
  let w := IntModel.computing_world in
  let out := generate 2 "poisson" true w in
  (∃ st wk,
     for_each (seq 0 1) (draw 2 "poisson")
       (allocate 2 (self (started true w))) (started true w) = (Ok st, wk))
  ∧ (∀ stage j, stage ∈ stage_names → j < 1 →
       is_file (fs out.2) (os_path_join (save_path (self out.2)) (step_file stage j))
       = true)
  ∧ (out.1 = Ok tt → fully_cached 2 out.2).
Proof.
  intros w out.
  assert (Hpre : ∃ st wk,
    for_each (seq 0 1) (draw 2 "poisson")
      (allocate 2 (self (started true w))) (started true w) = (Ok st, wk))
    by (eexists _, _; by vm_compute).
  split; [exact Hpre|]. destruct Hpre as (st & wk & Hpre).
  exact (completed_draws_stay_cached 2 "poisson" true w 1 st wk out.1 out.2
           (Nat.le_succ_diag_r 1) Hpre (surjective_pairing _)).
Defined.

(** * The raw stage and the pipeline *)

Section Pipeline.
Context {V Rng : Type} `{Numeric V} `{RandomState V Rng}.
Implicit Types (w : world V Rng) (m : Matrix V) (st : stacks (V:=V)).

(** X12: a raw stage that has to compute, with the method ['poisson'].
    When numpy's Poisson sampler accepts the rates of the reference, the
    stage returns a matrix with the reference's axes and shape, whose
    cells are Poisson draws at the rates [sqrt(max(value, 0))], and leaves
    it saved at the path of the draw; nothing else changes but the state
    of the generator.  When the sampler refuses a rate, the stage raises
    its [ValueError] and changes nothing. *)
Theorem generate_raw_poisson `{!NumericLaws V Rng} (step : nat) w :
  let path := os_path_join (save_path (self w)) (step_file "raw" step) in
  is_file (fs w) path = false ∨ regenerate (self w) = Some true →
  (rate_too_large (raw (self w)) = false → fs w !! path ≠ Some Dir →
   ∃ m g',
     generate_raw step "poisson" w
     = (Ok m, mkWorld (self w) (<[path := File (Some m)]> (fs w)) g')
     ∧ Eg m = Eg (raw (self w)) ∧ Ex m = Ex (raw (self w))
     ∧ Matrix_shape m = Matrix_shape (raw (self w))
     ∧ Forall2 (λ v o, ∃ g, o = (poisson1 (root_of_count v) g).1)
         (cells (values (raw (self w)))) (cells (values m)))
  ∧ (rate_too_large (raw (self w)) = true →
     generate_raw step "poisson" w = (Raise (ValueError "lam value too large"), w)).
Proof.
  intros path Hmiss. split.
  - intros Hrate Hdir.
    pose proof (generate_poisson_eq w Hrate) as Hp. simpl in Hp.
    set (d := draw_poisson (root_of_count <$> cells (values (raw (self w)))) (rng w))
      in Hp.
    set (vals := Array2 (rows (values (raw (self w)))) (cols (values (raw (self w)))) d.1)
      in Hp.
    assert (Hc : compute_raw "poisson" w
      = (Ok (mkMatrix vals (Eg (raw (self w))) (Ex (raw (self w))) None),
         mkWorld (self w) (fs w) d.2)).
    { unfold compute_raw.
      change (perturb "poisson") with (generate_poisson (V:=V) (Rng:=Rng)).
      unfold bind. by rewrite Hp. }
    exists (mkMatrix vals (Eg (raw (self w))) (Ex (raw (self w))) None), d.2. split.
    + rewrite generate_raw_miss by done. fold path.
      by rewrite (compute_then_save _ _ _ _ _ Hc Hdir).
    + repeat split. simpl. apply generate_poisson_cells.
  - intros Hrate. rewrite generate_raw_miss by done.
    apply compute_raise_then_save. unfold compute_raw.
    change (perturb "poisson") with (generate_poisson (V:=V) (Rng:=Rng)).
    apply bind_raise. by apply generate_poisson_refused.
Qed.

Lemma unfold_identity (u : Matrix V → result (Matrix V)) (k : nat) m w unf w' :
  unfolder (self w) = Some u → (∀ x, u x = Ok x) →
  regenerate (self w) = Some true →
  unfold k m w = (Ok unf, w') → unf = m.
Proof.
  intros Hu Hid Hregen. rewrite unfold_miss by auto. intros Hrun.
  apply bind_inv_ok in Hrun as (x & w1 & Hc & Hrun).
  unfold call_unfolder in Hc. rewrite bind_get_self, Hu, Hid in Hc.
  unfold lift in Hc. simplify_eq.
  apply bind_inv_ok in Hrun as ([] & w2 & _ & Hret).
  unfold ret in Hret. by simplify_eq.
Qed.

Lemma loop_identity_unfolder (number : nat) (method : string)
    (u : Matrix V → result (Matrix V)) w (steps : list nat) st0 st wl :
  unfolder (self w) = Some u → (∀ x, u x = Ok x) →
  raw_ensemble st0 = unfolded_ensemble st0 →
  loop_frame (started true w) w →
  for_each steps (draw number method) st0 w = (Ok st, wl) →
  raw_ensemble st = unfolded_ensemble st.
Proof.
  intros Hu Hid. revert st0 w Hu. induction steps as [|k steps IH];
    intros st0 w Hu Heq Hframe; simpl.
  { unfold ret. intros ?; by simplify_eq. }
  intros Hrun. apply bind_inv_ok in Hrun as (st1 & w1 & Hd & Hrun).
  assert (Hframe1 : loop_frame w w1) by (by eapply draw_ends_in).
  destruct Hframe as [(_ & _ & _ & _ & Hregen & _) _]. simpl in Hregen.
  apply draw_ok in Hd
    as (rawm & wa & unf & wb & fg & wc & Hr & Hunf & _ & _ & Hre & Hue & _).
  destruct (run_stage_frame (RawStage method) _ _ _ _ Hr) as [Hsa _].
  assert (unf = rawm) as ->.
  { eapply (unfold_identity u); [| |by rewrite Hsa|done]; [by rewrite Hsa|done]. }
  eapply (IH st1 w1); [| | |done].
  - destruct Hframe1 as [(_ & _ & -> & _) _]. done.
  - rewrite Heq in Hre. congruence.
  - destruct Hframe1 as [Hs1 _]. split; [|by intros].
    unfold same_but_firstgen in *. simpl. intuition congruence.
Qed.

(** X13: the loop hands the raw matrix of each draw to the unfolder: with an
    unfolder that returns its input and [regenerate] true, the unfolded
    summary of a [generate] that returned is the raw summary. *)
Theorem identity_unfolder_summaries_agree (number : nat) (method : string)
    (u : Matrix V → result (Matrix V)) w w' :
  unfolder (self w) = Some u → (∀ x, u x = Ok x) →
  generate number method true w = (Ok tt, w') →
  std_unfolded (self w') = std_raw (self w').
Proof.
  intros Hu Hid. rewrite generate_eq. intros Hg.
  apply bind_inv_ok in Hg as (st & wl & Hloop & Hsum).
  apply (loop_identity_unfolder number method u) in Hloop; [|done..|].
  - apply summarise_ok in Hsum as (fg & _ & ->). simpl. by rewrite Hloop.
  - by split.
Qed.
End Pipeline.

Lemma generate_raw_poisson_witness :
  (let w := IntSamples.resuming in
   ∃ m g',
     generate_raw 0 "poisson" w
     = (Ok m, mkWorld (self w) (<["out/raw_0.m" := File (Some m)]> (fs w)) g')
     ∧ Eg m = Eg (raw (self w)) ∧ Ex m = Ex (raw (self w))
     ∧ Matrix_shape m = Matrix_shape (raw (self w))
     ∧ Forall2 (λ v o, ∃ g, o = (poisson1 (root_of_count v) g).1)
         (cells (values (raw (self w)))) (cells (values m)))
  ∧ generate_raw 0 "poisson" IntModel.overflowing
    = (Raise (ValueError "lam value too large"), IntModel.overflowing).
Proof.
  assert (Hdir : fs IntSamples.resuming !! "out/raw_0.m" ≠ Some Dir)
    by (by vm_compute).
  assert (Hrate : rate_too_large (raw (self IntSamples.resuming)) = false)
    by (by vm_compute).
  assert (Hlarge : rate_too_large (raw (self IntModel.overflowing)) = true)
    by (by vm_compute).
  destruct (generate_raw_poisson 0 IntSamples.resuming (or_introl eq_refl))
    as [Hret _].
  destruct (generate_raw_poisson 0 IntModel.overflowing (or_introl eq_refl))
    as [_ Hraise].
  split; [exact (Hret Hrate Hdir)|exact (Hraise Hlarge)].
Defined.

Lemma identity_unfolder_summaries_agree_witness :
  let w' := (generate 2 "poisson" true IntModel.computing_world).2 in
  std_unfolded (self w') = std_raw (self w').
Proof.
  assert (Hrun : generate 2 "poisson" true IntModel.computing_world
                 = (Ok tt, (generate 2 "poisson" true IntModel.computing_world).2))
    by (by vm_compute).
  exact (identity_unfolder_summaries_agree 2 "poisson" IntModel.identity
           IntModel.computing_world _ eq_refl (λ x, eq_refl) Hrun).
Defined.
